(** * telegram_links-backend: the link-record service

    A shallow embedding of [src/routes/telegramLinks.ts] (the six Express
    route handlers) and of the Mongoose schema [TelegramLinkSchema] of the
    model file, followed by the properties of the service.

    Conventions of the model.
    - A JavaScript string is a [string]; each character stands for one
      UTF-16 code unit below 256.
    - A JavaScript number is a double; those of the list route have integer
      values, NaN or an infinity, and their arithmetic rounds as the doubles
      do.
    - The collection is the list of its documents in insertion order.
    - Mongoose (version 5 and later) applies the setters of a schema path,
      here [trim], when it casts a document field, a query filter value and
      an update value; validators see the value after the setters.
    - The handlers run one at a time: a handler is a function from the
      collection to a response, the next collection and the log of the model
      methods it called. The [console.error] of the [catch] blocks is not
      kept.
    - A field of a request body is a string or a falsy JSON value; the other
      truthy values (numbers, [true], arrays, objects) are outside the
      request type of the interface. *)

From Stdlib Require Import ZArith List String Ascii Bool Lia Permutation Sorted.
Import ListNotations.
Set Warnings "-register-all".
Open Scope string_scope.
Open Scope Z_scope.

(** ** JavaScript values *)

Module Js.

Definition code (c : ascii) : Z := Z.of_N (N_of_ascii c).

(** WhiteSpace and LineTerminator code units below 256: TAB, LF, VT, FF, CR,
    SP and NBSP. *)
Definition is_whitespace (c : ascii) : bool :=
  let n := code c in
  ((9 <=? n) && (n <=? 13)) || (n =? 32) || (n =? 160).

(** LineTerminator code units below 256: the characters [.] does not match
    in a JavaScript regular expression. *)
Definition is_line_terminator (c : ascii) : bool :=
  let n := code c in (n =? 10) || (n =? 13).

Fixpoint trimStart (s : string) : string :=
  match s with
  | String c s' => if is_whitespace c then trimStart s' else s
  | EmptyString => EmptyString
  end.

Fixpoint trimEnd (s : string) : string :=
  match s with
  | EmptyString => EmptyString
  | String c s' =>
      match trimEnd s' with
      | EmptyString => if is_whitespace c then EmptyString else String c EmptyString
      | r => String c r
      end
  end.

(** [String.prototype.trim]. *)
Definition trim (s : string) : string := trimEnd (trimStart s).

(** A number as the handlers meet it: a double whose value is an integer,
    NaN, or an infinity with its sign. The sign of a zero is not kept: the
    handlers only show it through the sign of the infinity of a division by
    zero, and [res.json] writes both infinities as [null]. *)
Inductive num : Type :=
  | Fin (z : Z)
  | NaN
  | Inf (negative : bool).

(** [Number.MAX_SAFE_INTEGER]. *)
Definition max_safe : Z := 2 ^ 53 - 1.

(** The integer with a significand of 53 bits nearest to [z], ties to the
    even significand. *)
Definition round53 (z : Z) : Z :=
  let a := Z.abs z in
  if a <? 2 ^ 53 then z
  else
    let e := Z.log2 a - 52 in
    let q := a / 2 ^ e in
    let r := a mod 2 ^ e in
    let half := 2 ^ (e - 1) in
    let q' := if (half <? r) || ((r =? half) && Z.odd q) then q + 1 else q in
    Z.sgn z * (q' * 2 ^ e).

(** The double of an integer: rounded, and an infinity past the largest
    double. *)
Definition to_double (z : Z) : num :=
  let r := round53 z in
  if Z.abs r <? 2 ^ 1024 then Fin r else Inf (z <? 0).

(** [a - b] *)
Definition num_sub (a b : num) : num :=
  match a, b with
  | Fin x, Fin y => to_double (x - y)
  | NaN, _ | _, NaN => NaN
  | Inf s, Fin _ => Inf s
  | Fin _, Inf s => Inf (negb s)
  | Inf s, Inf t => if Bool.eqb s t then NaN else Inf s
  end.

(** [a * b] *)
Definition num_mul (a b : num) : num :=
  match a, b with
  | Fin x, Fin y => to_double (x * y)
  | NaN, _ | _, NaN => NaN
  | Inf s, Fin y | Fin y, Inf s =>
      if y =? 0 then NaN else Inf (xorb s (y <? 0))
  | Inf s, Inf t => Inf (xorb s t)
  end.

(** A quotient of positive integers rounded to the nearest integer, ties to
    even. *)
Definition round_quot (num den : Z) : Z :=
  let q := num / den in
  let r := num mod den in
  if (den <? 2 * r) || ((2 * r =? den) && Z.odd q) then q + 1 else q.

(** The quotient [n / d] of two positive integers as a double [m * 2^e]:
    the significand has 53 bits (fewer below the smallest normal double) and
    the rounding is to nearest, ties to even. *)
Definition quot_round (n d : Z) : Z * Z :=
  let E0 := Z.log2 n - Z.log2 d in
  let E := if n * 2 ^ Z.max 0 (- E0) <? d * 2 ^ Z.max 0 E0
           then E0 - 1 else E0 in
  let e := Z.max (E - 52) (-1074) in
  (round_quot (n * 2 ^ Z.max 0 (- e)) (d * 2 ^ Z.max 0 e), e).

(** [Math.ceil(x / y)] for two integers, [y] not zero: the quotient is
    rounded to a double, then the ceiling is taken. *)
Definition ceil_quot (x y : Z) : Z :=
  let '(m, e) := quot_round (Z.abs x) (Z.abs y) in
  let negative := xorb (x <? 0) (y <? 0) in
  if 0 <=? e then (if negative then - (m * 2 ^ e) else m * 2 ^ e)
  else if negative then - (m / 2 ^ (- e))
  else - ((- m) / 2 ^ (- e)).

(** [Math.ceil(a / b)] *)
Definition ceil_div (a b : num) : num :=
  match a, b with
  | NaN, _ | _, NaN => NaN
  | Inf _, Inf _ => NaN
  | Inf s, Fin y => Inf (xorb s (y <? 0))
  | Fin _, Inf _ => Fin 0
  | Fin x, Fin y =>
      if y =? 0 then (if x =? 0 then NaN else Inf (x <? 0))
      else Fin (ceil_quot x y)
  end.

Definition digit_value (radix : Z) (c : ascii) : option Z :=
  let n := code c in
  let v := if (48 <=? n) && (n <=? 57) then Some (n - 48)
           else if (97 <=? n) && (n <=? 122) then Some (n - 87)
           else if (65 <=? n) && (n <=? 90) then Some (n - 55)
           else None in
  match v with
  | Some d => if d <? radix then Some d else None
  | None => None
  end.

(** The longest prefix of radix digits, as a number; [acc] is [None] until a
    first digit is read. *)
Fixpoint read_digits (radix : Z) (s : string) (acc : option Z) : option Z :=
  match s with
  | String c s' =>
      match digit_value radix c with
      | Some d =>
          read_digits radix s'
            (Some (match acc with Some a => a * radix + d | None => d end))
      | None => acc
      end
  | EmptyString => acc
  end.

(** [parseInt(s)] with no radix argument: the digits are read as an
    integer, which is then rounded to a double (the rounding is exact; the
    standard lets an engine approximate a decimal numeral past its 20th
    digit). *)
Definition parseInt (s : string) : num :=
  let s1 := trimStart s in
  let '(sign, s2) :=
    match s1 with
    | String "-" r => (-1, r)
    | String "+" r => (1, r)
    | _ => (1, s1)
    end in
  let '(radix, s3) :=
    match s2 with
    | String "0" (String "x" r) => (16, r)
    | String "0" (String "X" r) => (16, r)
    | _ => (10, s2)
    end in
  match read_digits radix s3 None with
  | Some m => to_double (sign * m)
  | None => NaN
  end.

(** A field of a JSON request body as the handlers read it: a string, or one
    of the falsy values a JSON body can give ([undefined] for an absent key,
    [null], [false], [0]). *)
Inductive value : Type :=
  | Undefined
  | Null
  | False_
  | Zero
  | Str (s : string).

(** ToBoolean. *)
Definition truthy (v : value) : bool :=
  match v with
  | Str s => negb (s =? EmptyString)%string
  | _ => false
  end.

(** The string of a value that passed a truthiness guard (only strings are
    truthy in [value]). *)
Definition asString (v : value) : string :=
  match v with
  | Str s => s
  | _ => EmptyString
  end.

(** The argument of [res.json]. A [Date] is written by [res.json] as its
    ISO-8601 string; it is kept here as its millisecond count. *)
Inductive json : Type :=
  | JNull
  | JBool (b : bool)
  | JNum (z : Z)
  | JStr (s : string)
  | JDate (ms : Z)
  | JArr (items : list json)
  | JObj (fields : list (string * json)).

Definition json_of_num (n : num) : json :=
  match n with
  | Fin z => JNum z
  | NaN | Inf _ => JNull
  end.

End Js.

(** ** Regular expressions *)

Module Regex.

Inductive re : Type :=
  | Void
  | Eps
  | Cls (p : ascii -> bool)
  | Seq (a b : re)
  | Alt (a b : re)
  | Star (a : re).

Definition Opt (a : re) : re := Alt Eps a.
Definition Plus (a : re) : re := Seq a (Star a).
Definition lit (c : ascii) : re := Cls (Ascii.eqb c).

Fixpoint str (s : string) : re :=
  match s with
  | EmptyString => Eps
  | String c s' => Seq (lit c) (str s')
  end.

Fixpoint nullable (r : re) : bool :=
  match r with
  | Void => false
  | Eps => true
  | Cls _ => false
  | Seq a b => nullable a && nullable b
  | Alt a b => nullable a || nullable b
  | Star _ => true
  end.

Fixpoint deriv (c : ascii) (r : re) : re :=
  match r with
  | Void => Void
  | Eps => Void
  | Cls p => if p c then Eps else Void
  | Seq a b =>
      if nullable a then Alt (Seq (deriv c a) b) (deriv c b)
      else Seq (deriv c a) b
  | Alt a b => Alt (deriv c a) (deriv c b)
  | Star a => Seq (deriv c a) (Star a)
  end.

(** Does [r] match a prefix of [s]?  This is [/^r/.test(s)]. *)
Fixpoint match_prefix (r : re) (s : string) : bool :=
  nullable r ||
  match s with
  | String c s' => match_prefix (deriv c r) s'
  | EmptyString => false
  end.

(** Does [r] match somewhere in [s]?  This is an unanchored search. *)
Fixpoint find_match (r : re) (s : string) : bool :=
  match_prefix r s ||
  match s with
  | String _ s' => find_match r s'
  | EmptyString => false
  end.

(** The words of a regular expression. *)
Inductive matches : re -> string -> Prop :=
  | m_eps : matches Eps EmptyString
  | m_cls p c : p c = true -> matches (Cls p) (String c EmptyString)
  | m_seq a b s t : matches a s -> matches b t -> matches (Seq a b) (s ++ t)
  | m_alt_l a b s : matches a s -> matches (Alt a b) s
  | m_alt_r a b s : matches b s -> matches (Alt a b) s
  | m_star_nil a : matches (Star a) EmptyString
  | m_star_cons a s t :
      matches a s -> matches (Star a) t -> matches (Star a) (s ++ t).

End Regex.

Import Js Regex.

(** ** The Mongoose model [TelegramLink] *)

Module Mongoose.

(** An [ObjectId], by its canonical 24-digit hexadecimal string. *)
Definition ObjectId : Type := string.

(** [ITelegramLink]. *)
Record Doc : Type := {
  _id : ObjectId;
  telegram_link : string;
  owner_name : string;
  createdAt : Z;
  updatedAt : Z
}.

Definition Collection : Type := list Doc.

(** What the handlers take from outside the collection: the clock and the
    [ObjectId] the driver generates for a new document. *)
Record Env : Type := {
  now : Z;
  new_id : ObjectId
}.

(** The parts of Mongoose and of MongoDB that depend on their version or fall
    outside the fragment modelled below.
    - [castObjectId]: the cast of a route parameter to an [ObjectId]
      ([None]: [CastError]).
    - [pcre_other]: the regular-expression engine of the server, with option
      [i], on a pattern that is not made of plain characters and [.] only
      ([None]: the server rejects the pattern).
    - [cursor_other]: the cursor of [find] for a [skip] that is not an
      integer from 0 to [max_safe] or a [limit] that is not an integer from
      1 to [max_safe] ([None]: the server rejects the command). *)
Class Driver : Type := {
  castObjectId : string -> option ObjectId;
  pcre_other : string -> option (string -> bool);
  cursor_other : num -> num -> list Doc -> option (list Doc)
}.

(** *** Schema: setters and validators *)

(** [.] of a JavaScript regular expression: any character but a line
    terminator. *)
Definition js_dot : re := Cls (fun c => negb (is_line_terminator c)).

(** [/^https?:\/\/(t\.me|telegram\.me)\/.+/] without its anchor. *)
Definition telegram_link_re : re :=
  Seq (str "http")
 (Seq (Opt (lit "s"))
 (Seq (str "://")
 (Seq (Alt (str "t.me") (str "telegram.me"))
 (Seq (lit "/")
      (Plus js_dot))))).

(** The [validate.validator] function of [telegram_link]. *)
Definition telegram_link_validator (v : string) : bool :=
  match_prefix telegram_link_re v.

(** The validators of a path run in the order [required], then the others as
    declared; the first that fails gives the message of the path. The
    [required] validator of a string path fails on the empty string. *)
Definition validate_telegram_link (v : string) : option string :=
  if (String.length v =? 0)%nat then Some "Telegram link is required"
  else if negb (telegram_link_validator v)
       then Some "Please provide a valid Telegram link"
  else None.

Definition validate_owner_name (v : string) : option string :=
  if (String.length v =? 0)%nat then Some "Owner name is required"
  else if (String.length v <? 2)%nat
       then Some "Owner name must be at least 2 characters long"
  else if (100 <? String.length v)%nat
       then Some "Owner name cannot exceed 100 characters"
  else None.

Definition path_error (path : string) (r : option string)
  : list (string * string) :=
  match r with
  | Some msg => [(path, msg)]
  | None => []
  end.

(** [error.errors] of a validation: one entry per failing path. *)
Definition validate (link owner : string) : list (string * string) :=
  (path_error "telegram_link" (validate_telegram_link link) ++
   path_error "owner_name" (validate_owner_name owner))%list.

(** [error.errors] of the update validators of [findByIdAndUpdate]: the
    same validators on the two paths of the update, reported with
    [owner_name] first. *)
Definition validate_update (link owner : string) : list (string * string) :=
  (path_error "owner_name" (validate_owner_name owner) ++
   path_error "telegram_link" (validate_telegram_link link))%list.

(** *** Errors, calls and the handler monad *)

Inductive Error : Type :=
  | ValidationError (errors : list (string * string))
  | CastError
  | MongoServerError.

(** The model methods a handler calls, for the log. *)
Inductive Call : Type :=
  | Find
  | CountDocuments
  | Distinct
  | FindById
  | FindOne
  | Save
  | FindByIdAndUpdate
  | FindByIdAndDelete.

Inductive Result (A : Type) : Type :=
  | Ok (a : A)
  | Throw (e : Error).
Arguments Ok {A} a.
Arguments Throw {A} e.

(** A computation over the collection that returns or throws, and logs the
    model methods it calls. *)
Definition M (A : Type) : Type :=
  Collection -> Result A * Collection * list Call.

Definition ret {A : Type} (a : A) : M A := fun st => (Ok a, st, []).

Definition bind {A B : Type} (m : M A) (f : A -> M B) : M B :=
  fun st =>
    match m st with
    | (Ok a, st1, l1) => let '(r, st2, l2) := f a st1 in (r, st2, (l1 ++ l2)%list)
    | (Throw e, st1, l1) => (Throw e, st1, l1)
    end.

Notation "x <- m ;; k" := (bind m (fun x => k))
  (at level 61, m at next level, right associativity).

(** One model method: it is logged, and it returns or throws. *)
Definition call {A : Type} (c : Call) (f : Collection -> Result A * Collection)
  : M A :=
  fun st => let '(r, st') := f st in (r, st', [c]).

(** *** Queries *)

(** Case folding of the ASCII letters. *)
Definition to_lower (c : ascii) : ascii :=
  let n := code c in
  if (65 <=? n) && (n <=? 90) then ascii_of_N (N_of_ascii c + 32) else c.

Definition lit_i (c : ascii) : re :=
  Cls (fun x => Ascii.eqb (to_lower x) (to_lower c)).

(** [.] of the server's engine: any character but LF. *)
Definition pcre_dot : re := Cls (fun c => negb (code c =? 10)).

Fixpoint mem_char (c : ascii) (s : string) : bool :=
  match s with
  | String x s' => Ascii.eqb c x || mem_char c s'
  | EmptyString => false
  end.

Definition is_meta (c : ascii) : bool := mem_char c "\^$.[]|()?*+{}".

(** A printable ASCII character that is not a metacharacter stands for
    itself. *)
Definition is_plain (c : ascii) : bool :=
  (32 <=? code c) && (code c <? 127) && negb (is_meta c).

(** The patterns made of plain characters and [.], compiled with option
    [i]. *)
Fixpoint fragment_i (pat : string) : option re :=
  match pat with
  | EmptyString => Some Eps
  | String c pat' =>
      match fragment_i pat' with
      | Some r =>
          if Ascii.eqb c "." then Some (Seq pcre_dot r)
          else if is_plain c then Some (Seq (lit_i c) r)
          else None
      | None => None
      end
  end.

Section Model.
Context {drv : Driver}.

(** [{ $regex: pat, $options: 'i' }] on a string field; Mongoose casts the
    operand of [$regex] without the setters of the path. *)
Definition regex_i (pat : string) : option (string -> bool) :=
  match fragment_i pat with
  | Some r => Some (find_match r)
  | None => pcre_other pat
  end.

(** The filter of the list route: [None] is [{}], [Some pat] is the [$or]
    of the two [$regex] conditions. The result is [None] when the server
    rejects the pattern. *)
Definition select (query : option string) (st : Collection)
  : option (list Doc) :=
  match query with
  | None => Some st
  | Some pat =>
      match regex_i pat with
      | Some m => Some (filter (fun d => m (telegram_link d) || m (owner_name d)) st)
      | None => None
      end
  end.

(** [.sort({ createdAt: -1 })]: a stable insertion sort. *)
Fixpoint insert_desc (d : Doc) (l : list Doc) : list Doc :=
  match l with
  | [] => [d]
  | x :: l' =>
      if createdAt x <=? createdAt d then d :: l
      else x :: insert_desc d l'
  end.

Definition sort_desc (l : list Doc) : list Doc :=
  fold_right insert_desc [] l.

(** [.skip(skip).limit(limit)], for a [skip] from 0 and a [limit] from 1 up
    to [max_safe]. *)
Definition window (skip limit : num) (l : list Doc) : option (list Doc) :=
  match skip, limit with
  | Fin k, Fin n =>
      if (0 <=? k) && (k <=? max_safe) && (1 <=? n) && (n <=? max_safe)
      then Some (firstn (Z.to_nat n) (skipn (Z.to_nat k) l))
      else cursor_other skip limit l
  | _, _ => cursor_other skip limit l
  end.

(** [TelegramLink.find(query).sort({createdAt: -1}).skip(skip).limit(limit)] *)
Definition find (query : option string) (skip limit : num) : M (list Doc) :=
  call Find (fun st =>
    match select query st with
    | Some sel =>
        match window skip limit (sort_desc sel) with
        | Some page => (Ok page, st)
        | None => (Throw MongoServerError, st)
        end
    | None => (Throw MongoServerError, st)
    end).

(** [TelegramLink.countDocuments(query)] *)
Definition countDocuments (query : option string) : M Z :=
  call CountDocuments (fun st =>
    match select query st with
    | Some sel => (Ok (Z.of_nat (List.length sel)), st)
    | None => (Throw MongoServerError, st)
    end).

(** [TelegramLink.distinct('owner_name')] *)
Definition distinct_owner_name : M (list string) :=
  call Distinct (fun st => (Ok (nodup string_dec (map owner_name st)), st)).

Definition has_id (oid : ObjectId) (d : Doc) : bool := (_id d =? oid)%string.

(** [TelegramLink.findById(id)] *)
Definition findById (id : string) : M (option Doc) :=
  call FindById (fun st =>
    match castObjectId id with
    | Some oid => (Ok (List.find (has_id oid) st), st)
    | None => (Throw CastError, st)
    end).

(** [TelegramLink.findOne({ telegram_link })]: the filter value goes through
    the setter of the path. *)
Definition findOne_link (link : string) : M (option Doc) :=
  call FindOne (fun st =>
    (Ok (List.find (fun d => (telegram_link d =? trim link)%string) st), st)).

(** [TelegramLink.findOne({ telegram_link, _id: { $ne: id } })] *)
Definition findOne_link_ne (link : string) (id : string) : M (option Doc) :=
  call FindOne (fun st =>
    match castObjectId id with
    | Some oid =>
        (Ok (List.find (fun d => (telegram_link d =? trim link)%string
                                 && negb (has_id oid d)) st), st)
    | None => (Throw CastError, st)
    end).

(** [new TelegramLink({ telegram_link, owner_name })]: the setters run in
    the constructor; the timestamps are those [save] gives a new document. *)
Definition new_doc (env : Env) (link owner : string) : Doc :=
  {| _id := new_id env;
     telegram_link := trim link;
     owner_name := trim owner;
     createdAt := now env;
     updatedAt := now env |}.

(** [telegramLink.save()] on the new document: the validators run, and the
    server refuses an [_id] that is already there. *)
Definition save (env : Env) (link owner : string) : M Doc :=
  call Save (fun st =>
    let d := new_doc env link owner in
    match validate (telegram_link d) (owner_name d) with
    | [] =>
        if existsb (has_id (_id d)) st then (Throw MongoServerError, st)
        else (Ok d, (st ++ [d])%list)
    | errs => (Throw (ValidationError errs), st)
    end).

Fixpoint update_first (oid : ObjectId) (f : Doc -> Doc) (st : Collection)
  : Collection :=
  match st with
  | [] => []
  | d :: st' =>
      if has_id oid d then f d :: st' else d :: update_first oid f st'
  end.

Fixpoint remove_first (oid : ObjectId) (st : Collection) : Collection :=
  match st with
  | [] => []
  | d :: st' => if has_id oid d then st' else d :: remove_first oid st'
  end.

(** [$set] of the update, with the timestamp Mongoose adds. *)
Definition set_fields (env : Env) (link owner : string) (d : Doc) : Doc :=
  {| _id := _id d;
     telegram_link := link;
     owner_name := owner;
     createdAt := createdAt d;
     updatedAt := now env |}.

(** [TelegramLink.findByIdAndUpdate(id, { telegram_link, owner_name },
    { new: true, runValidators: true })]: the update is cast (setters), the
    update validators run, and only then is the command sent. *)
Definition findByIdAndUpdate (env : Env) (id : string) (link owner : string)
  : M (option Doc) :=
  call FindByIdAndUpdate (fun st =>
    match castObjectId id with
    | Some oid =>
        match validate_update (trim link) (trim owner) with
        | [] =>
            match List.find (has_id oid) st with
            | Some d =>
                (Ok (Some (set_fields env (trim link) (trim owner) d)),
                 update_first oid (set_fields env (trim link) (trim owner)) st)
            | None => (Ok None, st)
            end
        | errs => (Throw (ValidationError errs), st)
        end
    | None => (Throw CastError, st)
    end).

(** [TelegramLink.findByIdAndDelete(id)] *)
Definition findByIdAndDelete (id : string) : M (option Doc) :=
  call FindByIdAndDelete (fun st =>
    match castObjectId id with
    | Some oid => (Ok (List.find (has_id oid) st), remove_first oid st)
    | None => (Throw CastError, st)
    end).

End Model.

End Mongoose.

Import Mongoose.

(** ** The routes of [telegramLinks.ts] *)

Module Routes.

Record Response : Type := {
  status : Z;
  body : json
}.

(** A route handler: the response, the collection it leaves and the model
    methods it called. *)
Definition Handler : Type := Collection -> Response * Collection * list Call.

(** [try { m } catch (error) { h error }], where [h] only builds the
    response. *)
Definition try_catch (m : M Response) (h : Error -> Response) : Handler :=
  fun st =>
    match m st with
    | (Ok r, st', l) => (r, st', l)
    | (Throw e, st', l) => (h e, st', l)
    end.

(** [req.query] of the list route and [req.body] of the write routes. *)
Record ListQuery : Type := {
  page : option string;
  limit : option string;
  search : option string
}.

Record Body : Type := {
  req_telegram_link : value;
  req_owner_name : value
}.

(** A document as [res.json] writes it. *)
Definition doc_json (d : Doc) : json :=
  JObj [("_id", JStr (_id d));
        ("telegram_link", JStr (telegram_link d));
        ("owner_name", JStr (owner_name d));
        ("createdAt", JDate (createdAt d));
        ("updatedAt", JDate (updatedAt d));
        ("__v", JNum 0)].

(** [res.status(code).json({ success: false, error: msg })] *)
Definition failure (code : Z) (msg : string) : Response :=
  {| status := code;
     body := JObj [("success", JBool false); ("error", JStr msg)] |}.

Definition missing_fields : Response :=
  failure 400 "Both telegram_link and owner_name are required".

(** The [catch] block of the two write routes. *)
Definition catch_write (msg : string) (e : Error) : Response :=
  match e with
  | ValidationError errors =>
      {| status := 400;
         body := JObj [("success", JBool false);
                       ("error", JStr "Validation error");
                       ("details", JArr (map (fun err => JStr (snd err)) errors))] |}
  | _ => failure 500 msg
  end.

Definition page_body (docs : list Doc) (pageNum limitNum : num) (total : Z)
  : json :=
  JObj [("success", JBool true);
        ("data", JArr (map doc_json docs));
        ("pagination",
         JObj [("currentPage", json_of_num pageNum);
               ("totalPages",
                json_of_num (ceil_div (to_double total) limitNum));
               ("totalItems", json_of_num (to_double total));
               ("itemsPerPage", json_of_num limitNum)])].

(** The constants of the list route: [page] and [limit] default to the
    numbers 1 and 10, and an absent or empty [search] gives the filter
    [{}]. *)
Definition pageNum (q : ListQuery) : num :=
  match page q with
  | Some s => parseInt s
  | None => Fin 1
  end.

Definition limitNum (q : ListQuery) : num :=
  match limit q with
  | Some s => parseInt s
  | None => Fin 10
  end.

Definition skip (q : ListQuery) : num :=
  num_mul (num_sub (pageNum q) (Fin 1)) (limitNum q).

Definition query (q : ListQuery) : option string :=
  match search q with
  | Some s => if (s =? EmptyString)%string then None else Some s
  | None => None
  end.

Section Handlers.
Context {drv : Driver}.

(** [router.get('/')] *)
Definition get_list (q : ListQuery) : Handler :=
  try_catch
    (telegramLinks <- find (query q) (skip q) (limitNum q) ;;
     total <- countDocuments (query q) ;;
     ret {| status := 200;
            body := page_body telegramLinks (pageNum q) (limitNum q) total |})
    (fun _ => failure 500 "Failed to fetch telegram links").

(** [router.get('/owners')] *)
Definition get_owners : Handler :=
  try_catch
    (owners <- distinct_owner_name ;;
     ret {| status := 200;
            body := JObj [("success", JBool true);
                          ("data", JArr (map JStr owners))] |})
    (fun _ => failure 500 "Failed to fetch owner names").

(** [router.get('/:id')] *)
Definition get_by_id (id : string) : Handler :=
  try_catch
    (telegramLink <- findById id ;;
     match telegramLink with
     | None => ret (failure 404 "Telegram link not found")
     | Some d =>
         ret {| status := 200;
                body := JObj [("success", JBool true); ("data", doc_json d)] |}
     end)
    (fun _ => failure 500 "Failed to fetch telegram link").

(** [router.post('/')] *)
Definition post (env : Env) (b : Body) : Handler :=
  try_catch
    (let link := req_telegram_link b in
     let owner := req_owner_name b in
     if negb (truthy link) || negb (truthy owner) then ret missing_fields
     else
       existingLink <- findOne_link (asString link) ;;
       match existingLink with
       | Some _ => ret (failure 409 "Telegram link already exists")
       | None =>
           savedLink <- save env (asString link) (asString owner) ;;
           ret {| status := 201;
                  body := JObj [("success", JBool true);
                                ("data", doc_json savedLink);
                                ("message",
                                 JStr "Telegram link created successfully")] |}
       end)
    (catch_write "Failed to create telegram link").

(** [router.put('/:id')] *)
Definition put (env : Env) (id : string) (b : Body) : Handler :=
  try_catch
    (let link := req_telegram_link b in
     let owner := req_owner_name b in
     if negb (truthy link) || negb (truthy owner) then ret missing_fields
     else
       existingLink <- findOne_link_ne (asString link) id ;;
       match existingLink with
       | Some _ => ret (failure 409 "Telegram link already exists")
       | None =>
           telegramLink <-
             findByIdAndUpdate env id (asString link) (asString owner) ;;
           match telegramLink with
           | None => ret (failure 404 "Telegram link not found")
           | Some d =>
               ret {| status := 200;
                      body := JObj [("success", JBool true);
                                    ("data", doc_json d);
                                    ("message",
                                     JStr "Telegram link updated successfully")] |}
           end
       end)
    (catch_write "Failed to update telegram link").

(** [router.delete('/:id')] *)
Definition delete (id : string) : Handler :=
  try_catch
    (telegramLink <- findByIdAndDelete id ;;
     match telegramLink with
     | None => ret (failure 404 "Telegram link not found")
     | Some _ =>
         ret {| status := 200;
                body := JObj [("success", JBool true);
                              ("message",
                               JStr "Telegram link deleted successfully")] |}
     end)
    (fun _ => failure 500 "Failed to delete telegram link").

(** The router. *)
Inductive Request : Type :=
  | GetList (q : ListQuery)
  | GetOwners
  | GetById (id : string)
  | Post (b : Body)
  | Put (id : string) (b : Body)
  | Delete (id : string).

Definition handle (env : Env) (rq : Request) : Handler :=
  match rq with
  | GetList q => get_list q
  | GetOwners => get_owners
  | GetById id => get_by_id id
  | Post b => post env b
  | Put id b => put env id b
  | Delete id => delete id
  end.

Definition response_of (h : Handler) (st : Collection) : Response :=
  fst (fst (h st)).

Definition store_after (h : Handler) (st : Collection) : Collection :=
  snd (fst (h st)).

Definition calls_of (h : Handler) (st : Collection) : list Call :=
  snd (h st).

(** Requests served one after the other. *)
Fixpoint serve (reqs : list (Env * Request)) (st : Collection) : Collection :=
  match reqs with
  | [] => st
  | (env, rq) :: rest => serve rest (store_after (handle env rq) st)
  end.

End Handlers.

End Routes.

Import Routes.

(** ** The notions of the specification *)

(** Case-insensitive containment, as the specification words it: some
    substring of [hay] equals [needle] up to the case of the letters. *)
Fixpoint fold_case (s : string) : string :=
  match s with
  | EmptyString => EmptyString
  | String c s' => String (to_lower c) (fold_case s')
  end.

Definition contains_ci (needle hay : string) : Prop :=
  exists pre mid post : string,
    hay = pre ++ mid ++ post /\ fold_case mid = fold_case needle.

(** The compiled form of a pattern with no metacharacter. *)
Fixpoint lits_i (p : string) : re :=
  match p with
  | EmptyString => Eps
  | String c p' => Seq (lit_i c) (lits_i p')
  end.

(** The search strings with no metacharacter of the server's engine. *)
Fixpoint all_plain (s : string) : bool :=
  match s with
  | EmptyString => true
  | String c s' => is_plain c && all_plain s'
  end.

(** The link rule as the specification states it, on the value supplied. *)
Definition spec_link_ok (v : string) : bool :=
  negb (v =? EmptyString)%string && match_prefix telegram_link_re v.

(** The owner-name rule of the specification. *)
Definition spec_owner_ok (v : string) : bool :=
  ((2 <=? String.length (trim v)) && (String.length (trim v) <=? 100))%nat.

(** [link] is unique across the records. *)
Definition unique_links (st : Collection) : Prop :=
  NoDup (map telegram_link st).

Definition unique_ids (st : Collection) : Prop :=
  NoDup (map _id st).

(** What every stored record satisfies: its fields went through the setters
    and the validators of the schema. *)
Definition schema_ok (d : Doc) : Prop :=
  trim (telegram_link d) = telegram_link d /\
  trim (owner_name d) = owner_name d /\
  validate (telegram_link d) (owner_name d) = [].

(** The response envelope. *)
Fixpoint lookup (k : string) (fields : list (string * json)) : option json :=
  match fields with
  | [] => None
  | (k', v) :: rest => if (k =? k')%string then Some v else lookup k rest
  end.







(** The responses of the write routes. *)
Definition created (d : Doc) : Response :=
  {| status := 201;
     body := JObj [("success", JBool true);
                   ("data", doc_json d);
                   ("message", JStr "Telegram link created successfully")] |}.

Definition updated (d : Doc) : Response :=
  {| status := 200;
     body := JObj [("success", JBool true);
                   ("data", doc_json d);
                   ("message", JStr "Telegram link updated successfully")] |}.

Definition deleted : Response :=
  {| status := 200;
     body := JObj [("success", JBool true);
                   ("message", JStr "Telegram link deleted successfully")] |}.

Definition validation_failed (errors : list (string * string)) : Response :=
  {| status := 400;
     body := JObj [("success", JBool false);
                   ("error", JStr "Validation error");
                   ("details", JArr (map (fun err => JStr (snd err)) errors))] |}.

Definition duplicate_link : Response :=
  failure 409 "Telegram link already exists".

Definition not_found : Response := failure 404 "Telegram link not found".

(** Some record stores [link]. *)
Definition link_stored (link : string) (st : Collection) : bool :=
  existsb (fun d => (telegram_link d =? link)%string) st.

(** Some record other than [oid] stores [link]. *)
Definition link_stored_elsewhere (link : string) (oid : ObjectId)
  (st : Collection) : bool :=
  existsb (fun d => (telegram_link d =? link)%string && negb (has_id oid d)) st.

Definition id_stored (oid : ObjectId) (st : Collection) : bool :=
  existsb (has_id oid) st.

(** The record a route parameter designates. *)
Definition id_is {drv : Driver} (id : string) (d : Doc) : bool :=
  match castObjectId id with
  | Some oid => has_id oid d
  | None => false
  end.

(** The page the list route answers with once the filter selected [sel]. *)
Definition page_of {drv : Driver} (q : ListQuery) (sel : list Doc) : Response :=
  match window (skip q) (limitNum q) (sort_desc sel) with
  | Some docs =>
      {| status := 200;
         body := page_body docs (pageNum q) (limitNum q)
                   (Z.of_nat (List.length sel)) |}
  | None => failure 500 "Failed to fetch telegram links"
  end.

(** Most recent first. *)
Definition newer_first (a b : Doc) : Prop := createdAt b <= createdAt a.

(** The collection is consistent: identifiers and links are unique. *)
Definition consistent (st : Collection) : Prop :=
  unique_ids st /\ unique_links st.

(** The records a [search] parameter asks for, in the words of the
    specification: with no parameter every record, and otherwise those whose
    link or owner name contains it whatever the case of the letters. *)
Definition wanted (search : option string) (d : Doc) : Prop :=
  match search with
  | Some s => contains_ci s (telegram_link d) \/ contains_ci s (owner_name d)
  | None => True
  end.

Definition search_is_plain (q : ListQuery) : bool :=
  match search q with
  | Some s => all_plain s
  | None => true
  end.

(** The collections the service builds: consistent, and every record went
    through the schema. *)
Definition well_formed (st : Collection) : Prop :=
  consistent st /\ Forall schema_ok st.

(** A driver to run the model on: an [ObjectId] is cast from 24 hexadecimal
    digits, and nothing outside the modelled fragment is accepted. *)
Fixpoint lower_hex (s : string) : option string :=
  match s with
  | EmptyString => Some EmptyString
  | String c s' =>
      match digit_value 16 c, lower_hex s' with
      | Some _, Some r => Some (String (to_lower c) r)
      | _, _ => None
      end
  end.

Definition hex24 : Driver :=
  {| castObjectId := fun s =>
       if (String.length s =? 24)%nat then lower_hex s else None;
     pcre_other := fun _ => None;
     cursor_other := fun _ _ _ => None |}.

(** The clock never goes back along a session that starts at time [t]. *)
Fixpoint clock_from (t : Z) (reqs : list (Env * Request)) : Prop :=
  match reqs with
  | [] => True
  | (env, _) :: rest => t <= now env /\ clock_from (now env) rest
  end.

(** A record whose two timestamps are in order and not after [t]. *)
Definition stamped_by (t : Z) (d : Doc) : Prop :=
  createdAt d <= updatedAt d <= t.

(** The identity of a record: what an update must not touch. *)
Definition identity (d : Doc) : ObjectId * Z := (_id d, createdAt d).

(** The routes that only read. *)
Definition is_read (rq : Request) : bool :=
  match rq with
  | GetList _ | GetOwners | GetById _ => true
  | _ => false
  end.

(** The response of [GET /:id] for a stored record. *)
Definition found (d : Doc) : Response :=
  {| status := 200;
     body := JObj [("success", JBool true); ("data", doc_json d)] |}.

(** ** Sample data *)

Module Sample.

Definition env0 : Env :=
  {| now := 1000; new_id := "aaaaaaaaaaaaaaaaaaaaaaaa" |}.

Definition env1 : Env :=
  {| now := 2000; new_id := "bbbbbbbbbbbbbbbbbbbbbbbb" |}.

Definition body_abc : Body :=
  {| req_telegram_link := Str "https://t.me/abc"; req_owner_name := Str "Bob" |}.

Definition doc_abc : Doc :=
  {| _id := "aaaaaaaaaaaaaaaaaaaaaaaa";
     telegram_link := "https://t.me/abc";
     owner_name := "Bob";
     createdAt := 1000;
     updatedAt := 1000 |}.

(** One creation, served from the empty collection. *)
Definition session_abc : list (Env * Request) := [(env0, Post body_abc)].

Definition store_abc : Collection := [doc_abc].

(** Twelve records, created one millisecond apart. *)
Definition numbered (c : ascii) : Doc :=
  {| _id := String c "00000000000000000000000";
     telegram_link := "https://t.me/channel" ++ String c EmptyString;
     owner_name := "Owner " ++ String c EmptyString;
     createdAt := code c;
     updatedAt := code c |}.

Definition twelve : Collection :=
  map numbered (list_ascii_of_string "0123456789ab").

Definition page2_of5 : ListQuery :=
  {| page := Some "2"; limit := Some "5"; search := None |}.

Definition search_for (s : string) : ListQuery :=
  {| page := None; limit := None; search := Some s |}.

(** Two creations, one second apart. *)
Definition body_xyz : Body :=
  {| req_telegram_link := Str "http://telegram.me/xyz";
     req_owner_name := Str " Alice " |}.

Definition doc_xyz : Doc :=
  {| _id := "bbbbbbbbbbbbbbbbbbbbbbbb";
     telegram_link := "http://telegram.me/xyz";
     owner_name := "Alice";
     createdAt := 2000;
     updatedAt := 2000 |}.

Definition session_two : list (Env * Request) :=
  [(env0, Post body_abc); (env1, Post body_xyz)].

Definition env2 : Env :=
  {| now := 3000; new_id := "cccccccccccccccccccccccc" |}.

(** The two creations, then an update of the first record. *)
Definition body_robert : Body :=
  {| req_telegram_link := Str "https://t.me/abc";
     req_owner_name := Str "Robert" |}.

Definition session_three : list (Env * Request) :=
  [(env0, Post body_abc); (env1, Post body_xyz);
   (env2, Put "aaaaaaaaaaaaaaaaaaaaaaaa" body_robert)].

Definition doc_robert : Doc :=
  {| _id := "aaaaaaaaaaaaaaaaaaaaaaaa";
     telegram_link := "https://t.me/abc";
     owner_name := "Robert";
     createdAt := 1000;
     updatedAt := 3000 |}.

Definition body_bad : Body :=
  {| req_telegram_link := Str "ftp://t.me/abc"; req_owner_name := Str "x" |}.

Definition page4_of5 : ListQuery :=
  {| page := Some "4"; limit := Some "5"; search := None |}.

Definition first_page : ListQuery :=
  {| page := None; limit := None; search := None |}.

(** A page number one above [max_safe + 1], which no double holds. *)
Definition page_unsafe : ListQuery :=
  {| page := Some "9007199254740993"; limit := Some "1"; search := None |}.

End Sample.

(** * Properties *)

(** ** Strings *)

Section StringFacts.

Lemma append_empty_r (s : string) : s ++ EmptyString = s.
Proof. induction s as [|c s IH]; simpl; [reflexivity | now rewrite IH]. Qed.

Lemma append_assoc (s t u : string) : (s ++ t) ++ u = s ++ (t ++ u).
Proof. induction s as [|c s IH]; simpl; [reflexivity | now rewrite IH]. Qed.

Lemma append_eq_empty (s t : string) :
  s ++ t = EmptyString -> s = EmptyString /\ t = EmptyString.
Proof. destruct s; simpl; intros H; [now split | discriminate]. Qed.

Lemma append_eq_cons (s t : string) (c : ascii) (u : string) :
  s ++ t = String c u ->
  (s = EmptyString /\ t = String c u) \/
  (exists s', s = String c s' /\ u = s' ++ t).
Proof.
  destruct s as [|x s]; simpl; intros H.
  - left. now split.
  - right. injection H as -> <-. now exists s.
Qed.

Lemma length_append (s t : string) :
  String.length (s ++ t) = (String.length s + String.length t)%nat.
Proof. induction s as [|c s IH]; simpl; [reflexivity | now rewrite IH]. Qed.

End StringFacts.

(** ** The matcher is sound and complete for the words of an expression *)

Section RegexFacts.

Lemma nullable_matches (r : re) :
  nullable r = true <-> matches r EmptyString.
Proof.
  split.
  - induction r; simpl; intros H; try discriminate.
    + constructor.
    + apply andb_true_iff in H as [Ha Hb].
      change EmptyString with (EmptyString ++ EmptyString).
      constructor; auto.
    + apply orb_true_iff in H as [Ha | Hb];
        [apply m_alt_l | apply m_alt_r]; auto.
    + constructor.
  - intros H. remember EmptyString as w eqn:E.
    induction H; simpl; try reflexivity; try discriminate.
    + apply append_eq_empty in E as [-> ->].
      rewrite IHmatches1, IHmatches2; auto.
    + rewrite IHmatches; auto.
    + rewrite IHmatches; auto using orb_true_r.
Qed.

Lemma deriv_sound (c : ascii) (r : re) :
  forall s, matches (deriv c r) s -> matches r (String c s).
Proof.
  induction r; simpl; intros s H.
  - inversion H.
  - inversion H.
  - destruct (p c) eqn:Hp; inversion H; subst. now constructor.
  - assert (Hseq : forall u, matches (Seq (deriv c r1) r2) u ->
                             matches (Seq r1 r2) (String c u)).
    { intros u Hu. inversion Hu; subst.
      change (String c (s0 ++ t)) with (String c s0 ++ t).
      constructor; auto. }
    destruct (nullable r1) eqn:Hn; [|auto].
    inversion H; subst; [auto|].
    change (String c s) with (EmptyString ++ String c s).
    constructor; [now apply nullable_matches | auto].
  - inversion H; subst; [apply m_alt_l | apply m_alt_r]; auto.
  - inversion H; subst.
    change (String c (s0 ++ t)) with (String c s0 ++ t).
    constructor; auto.
Qed.

Lemma deriv_complete (c : ascii) (r : re) (w : string) :
  matches r w -> forall s, w = String c s -> matches (deriv c r) s.
Proof.
  induction 1 as [ | p x Hp | a b s1 t Ha IHa Hb IHb | a b s1 Ha IHa
                 | a b s1 Hb IHb | a | a s1 t Ha IHa Hs IHs ];
    intros s E; simpl; try discriminate.
  - injection E as -> <-. rewrite Hp. constructor.
  - apply append_eq_cons in E as [[-> ->] | [s' [-> ->]]].
    + apply nullable_matches in Ha. rewrite Ha. apply m_alt_r. auto.
    + destruct (nullable a); [apply m_alt_l|]; constructor; auto.
  - apply m_alt_l; auto.
  - apply m_alt_r; auto.
  - apply append_eq_cons in E as [[-> ->] | [s' [-> ->]]].
    + now apply IHs.
    + constructor; auto.
Qed.

Lemma deriv_matches (c : ascii) (r : re) (s : string) :
  matches (deriv c r) s <-> matches r (String c s).
Proof.
  split; [apply deriv_sound | intros H; now apply (deriv_complete c r _ H)].
Qed.

Lemma match_prefix_spec (r : re) (s : string) :
  match_prefix r s = true <->
  exists s1 s2, s = s1 ++ s2 /\ matches r s1.
Proof.
  revert r. induction s as [|c s IH]; intros r; simpl.
  - rewrite orb_false_r, nullable_matches. split.
    + intros H. now exists EmptyString, EmptyString.
    + intros (s1 & s2 & E & H). symmetry in E.
      apply append_eq_empty in E as [-> _]. exact H.
  - rewrite orb_true_iff, IH, nullable_matches. split.
    + intros [H | (s1 & s2 & -> & H)].
      * now exists EmptyString, (String c s).
      * exists (String c s1), s2. split; [reflexivity|].
        now apply deriv_matches.
    + intros (s1 & s2 & E & H). symmetry in E.
      apply append_eq_cons in E as [[-> _] | [s' [-> ->]]].
      * now left.
      * right. exists s', s2. split; [reflexivity|].
        now apply deriv_matches.
Qed.

Lemma find_match_spec (r : re) (s : string) :
  find_match r s = true <->
  exists pre mid post, s = pre ++ mid ++ post /\ matches r mid.
Proof.
  induction s as [|c s IH]; cbn [find_match].
  - rewrite orb_false_r, match_prefix_spec. split.
    + intros (s1 & s2 & E & H). now exists EmptyString, s1, s2.
    + intros (pre & mid & post & E & H). symmetry in E.
      apply append_eq_empty in E as [-> E]. now exists mid, post.
  - rewrite orb_true_iff, IH, match_prefix_spec. split.
    + intros [(s1 & s2 & E & H) | (pre & mid & post & -> & H)].
      * exists EmptyString, s1, s2. now split.
      * exists (String c pre), mid, post. now split.
    + intros (pre & mid & post & E & H).
      destruct pre as [|x pre]; simpl in E.
      * left. now exists mid, post.
      * injection E as <- ->. right. now exists pre, mid, post.
Qed.

Lemma lits_i_matches (p m : string) :
  matches (lits_i p) m <-> fold_case m = fold_case p.
Proof.
  revert m. induction p as [|c p IH]; intros m; simpl.
  - split.
    + intros H. inversion H. reflexivity.
    + destruct m; simpl; [constructor | discriminate].
  - split.
    + intros H. inversion H as [ | | a b s t Hs Ht | | | | ]; subst.
      inversion Hs as [ | q x Hx | | | | | ]; subst. simpl.
      apply Ascii.eqb_eq in Hx. rewrite Hx. f_equal. now apply IH.
    + destruct m as [|x m]; simpl; [discriminate|].
      intros E. injection E as Hx Hm.
      change (String x m) with (String x EmptyString ++ m).
      constructor; [|now apply IH].
      constructor. now apply Ascii.eqb_eq.
Qed.

Lemma fragment_plain (p : string) :
  all_plain p = true -> fragment_i p = Some (lits_i p).
Proof.
  induction p as [|c p IH]; simpl; [reflexivity|].
  intros H. apply andb_true_iff in H as [Hc Hp].
  rewrite (IH Hp), Hc.
  destruct (Ascii.eqb c ".") eqn:E; [|reflexivity].
  apply Ascii.eqb_eq in E. subst c. discriminate Hc.
Qed.

End RegexFacts.

(** ** The pattern of the link validator *)

Section ValidatorFacts.

Lemma matches_seq_inv (a b : re) (s : string) :
  matches (Seq a b) s ->
  exists s1 s2, s = s1 ++ s2 /\ matches a s1 /\ matches b s2.
Proof. intros H. inversion H; subst. eauto. Qed.

Lemma matches_lit_inv (c : ascii) (s : string) :
  matches (lit c) s -> s = String c EmptyString.
Proof.
  intros H. inversion H as [ | p x Hx | | | | | ]; subst.
  apply Ascii.eqb_eq in Hx. now subst.
Qed.

Lemma matches_str (p s : string) : matches (str p) s <-> s = p.
Proof.
  revert s. induction p as [|c p IH]; intros s; simpl.
  - split; [intros H; now inversion H | intros ->; constructor].
  - split.
    + intros H. apply matches_seq_inv in H as (s1 & s2 & -> & H1 & H2).
      apply matches_lit_inv in H1. apply IH in H2. now subst.
    + intros ->. change (String c p) with (String c EmptyString ++ p).
      constructor; [|now apply IH].
      constructor. apply Ascii.eqb_refl.
Qed.

(** The link validator accepts the strings that start with [http://] or
    [https://], then [t.me] or [telegram.me], then [/] and a character that
    is not a line terminator. *)
Lemma telegram_link_validator_spec (v : string) :
  telegram_link_validator v = true <->
  exists (scheme host : string) (c : ascii) (rest : string),
    (scheme = "http" \/ scheme = "https") /\
    (host = "t.me" \/ host = "telegram.me") /\
    is_line_terminator c = false /\
    v = scheme ++ "://" ++ host ++ "/" ++ String c rest.
Proof.
  unfold telegram_link_validator. rewrite match_prefix_spec. split.
  - intros (s1 & s2 & -> & H). unfold telegram_link_re in H.
    apply matches_seq_inv in H as (a & r1 & -> & Ha & H).
    apply matches_seq_inv in H as (b & r2 & -> & Hb & H).
    apply matches_seq_inv in H as (c & r3 & -> & Hc & H).
    apply matches_seq_inv in H as (d & r4 & -> & Hd & H).
    apply matches_seq_inv in H as (e & f & -> & He & H).
    apply matches_str in Ha, Hc. apply matches_lit_inv in He. subst a c e.
    apply matches_seq_inv in H as (x & w & -> & Hx & _).
    inversion Hx as [ | p y Hy | | | | | ]; subst.
    apply negb_true_iff in Hy.
    assert (Hs : b = EmptyString \/ b = "s").
    { inversion Hb; subst; [left; now inversion H2 | right].
      now apply matches_lit_inv. }
    assert (Hh : d = "t.me" \/ d = "telegram.me").
    { inversion Hd; subst; [left | right]; now apply matches_str. }
    exists (if (b =? EmptyString)%string then "http" else "https"), d, y,
      (w ++ s2).
    repeat split; auto.
    + destruct Hs as [-> | ->]; simpl; auto.
    + destruct Hs as [-> | ->]; destruct Hh as [-> | ->]; reflexivity.
  - intros (scheme & host & c & rest & Hs & Hh & Hc & ->).
    exists (scheme ++ "://" ++ host ++ "/" ++ String c EmptyString), rest.
    split.
    + rewrite !append_assoc. reflexivity.
    + unfold telegram_link_re.
      replace scheme with ("http" ++ (if (scheme =? "http")%string
                                      then EmptyString else "s"))
        by (destruct Hs as [-> | ->]; reflexivity).
      rewrite !append_assoc.
      constructor; [now apply matches_str|].
      constructor.
      { destruct Hs as [-> | ->]; simpl;
          [apply m_alt_l; constructor
          | apply m_alt_r; constructor; reflexivity]. }
      constructor; [now apply matches_str|].
      constructor.
      { destruct Hh as [-> | ->]; [apply m_alt_l | apply m_alt_r];
          now apply matches_str. }
      change ("/" ++ String c EmptyString)
        with (String "/" EmptyString ++ String c EmptyString).
      constructor; [constructor; reflexivity|].
      change (String c EmptyString)
        with (String c EmptyString ++ EmptyString).
      constructor; [|constructor].
      constructor. now rewrite Hc.
Qed.

End ValidatorFacts.

(** ** The doubles of the list route *)

Section NumberFacts.

Lemma quot_exponent (n d : Z) :
  0 < n < 2 ^ 53 -> 0 < d < 2 ^ 1024 ->
  exists A, 0 <= A /\ d < 2 ^ (A + 1) /\
            quot_round n d = (round_quot (n * 2 ^ A) d, - A).
Proof.
  intros [Hn0 Hn] [Hd0 Hd]. unfold quot_round.
  set (a := Z.log2 n). set (b := Z.log2 d).
  assert (Ha : 2 ^ a <= n < 2 ^ (a + 1)).
  { unfold a. replace (Z.log2 n + 1) with (Z.succ (Z.log2 n)) by lia.
    now apply Z.log2_spec. }
  assert (Hb : 2 ^ b <= d < 2 ^ (b + 1)).
  { unfold b. replace (Z.log2 d + 1) with (Z.succ (Z.log2 d)) by lia.
    now apply Z.log2_spec. }
  assert (Ha0 : 0 <= a) by apply Z.log2_nonneg.
  assert (Hb0 : 0 <= b) by apply Z.log2_nonneg.
  assert (Ha52 : a < 53) by (apply Z.log2_lt_pow2; lia).
  set (E0 := a - b).
  set (E := if n * 2 ^ Z.max 0 (- E0) <? d * 2 ^ Z.max 0 E0
            then E0 - 1 else E0).
  assert (HE52 : E <= 52) by (unfold E; destruct (_ <? _); lia).
  assert (HE : d * 2 ^ Z.max 0 E <= n * 2 ^ Z.max 0 (- E)).
  { unfold E. destruct (Z.ltb_spec (n * 2 ^ Z.max 0 (- E0)) (d * 2 ^ Z.max 0 E0)) as [Hlt|Hge].
    - destruct (Z_le_gt_dec 1 E0) as [H1|H1].
      + (* E0 - 1 >= 0 : d * 2^(E0-1) <= n.  d < 2^(b+1), n >= 2^a = 2^(b+E0) *)
        rewrite (Z.max_r 0 (E0 - 1)) by lia. rewrite (Z.max_l 0 (- (E0 - 1))) by lia.
        rewrite Z.pow_0_r, Z.mul_1_r.
        assert (P : 2 ^ a = 2 ^ (b + 1) * 2 ^ (E0 - 1)).
        { rewrite <- Z.pow_add_r by lia. f_equal; unfold E0; try lia. }
        assert (0 < 2 ^ (E0 - 1)) by (apply Z.pow_pos_nonneg; lia).
        nia.
      + (* E0 <= 0 : d <= n * 2^(1-E0).  n >= 2^a, d < 2^(b+1) = 2^a * 2^(1 - E0) *)
        rewrite (Z.max_l 0 (E0 - 1)) by lia. rewrite (Z.max_r 0 (- (E0 - 1))) by lia.
        rewrite Z.pow_0_r, Z.mul_1_r.
        assert (P : 2 ^ (b + 1) = 2 ^ a * 2 ^ (- (E0 - 1))).
        { rewrite <- Z.pow_add_r by lia. f_equal; unfold E0; try lia. }
        assert (0 < 2 ^ (- (E0 - 1))) by (apply Z.pow_pos_nonneg; lia).
        nia.
    - exact Hge. }
  set (e := Z.max (E - 52) (-1074)).
  exists (- e). assert (He : e <= 0) by (unfold e; lia).
  split; [lia|]. split.
  2:{ fold E0. fold E. fold e.
      rewrite (Z.max_r 0 (- e)), (Z.max_l 0 e) by lia.
      rewrite Z.pow_0_r, Z.mul_1_r. f_equal. lia. }
  destruct (Z_le_gt_dec (E - 52) (-1074)) as [Hc|Hc].
  - unfold e. rewrite Z.max_r by lia.
    apply Z.lt_trans with (2 ^ 1024); [assumption|].
    apply Z.pow_lt_mono_r; lia.
  - unfold e. rewrite Z.max_l by lia.
    replace (- (E - 52) + 1) with (53 - E) by lia.
    destruct (Z_le_gt_dec 0 E) as [HE0|HE0].
    + rewrite (Z.max_r 0 E) in HE by lia. rewrite (Z.max_l 0 (- E)) in HE by lia.
      rewrite Z.pow_0_r, Z.mul_1_r in HE.
      assert (P : 2 ^ 53 = 2 ^ (53 - E) * 2 ^ E).
      { rewrite <- Z.pow_add_r by lia. f_equal; try lia. }
      assert (0 < 2 ^ E) by (apply Z.pow_pos_nonneg; lia).
      assert (0 < 2 ^ (53 - E)) by (apply Z.pow_pos_nonneg; lia).
      nia.
    + rewrite (Z.max_l 0 E) in HE by lia. rewrite (Z.max_r 0 (- E)) in HE by lia.
      rewrite Z.pow_0_r, Z.mul_1_r in HE.
      assert (P : 2 ^ (53 - E) = 2 ^ 53 * 2 ^ (- E)).
      { rewrite <- Z.pow_add_r by lia. f_equal; try lia. }
      assert (0 < 2 ^ (- E)) by (apply Z.pow_pos_nonneg; lia).
      nia.
Qed.

Lemma round_quot_cases (num den : Z) :
  0 < den ->
  let q := num / den in
  let r := num mod den in
  num = den * q + r /\ 0 <= r < den /\
  ((round_quot num den = q /\ 2 * r <= den) \/
   (round_quot num den = q + 1 /\ den <= 2 * r)).
Proof.
  intros Hd q r. split; [apply Z.div_mod; lia|].
  split; [apply Z.mod_pos_bound; lia|].
  unfold round_quot. fold q r.
  destruct (Z.ltb_spec den (2 * r)); cbn [orb andb];
    [right; split; [reflexivity | lia]|].
  destruct (Z.eqb_spec (2 * r) den); cbn [orb andb];
    [|left; split; [reflexivity | lia]].
  destruct (Z.odd q); [right | left]; split; try reflexivity; lia.
Qed.

Lemma round_quot_between (n d A : Z) :
  0 < n -> 0 < d -> 0 <= A -> d < 2 ^ (A + 1) ->
  let m := round_quot (n * 2 ^ A) d in
  (- (- n / d) - 1) * 2 ^ A < m <= - (- n / d) * 2 ^ A /\
  (n / d) * 2 ^ A <= m < (n / d + 1) * 2 ^ A.
Proof.
  intros Hn Hd HA Hlt m.
  assert (HP : 0 < 2 ^ A) by (apply Z.pow_pos_nonneg; lia).
  assert (HP2 : 2 ^ (A + 1) = 2 * 2 ^ A) by (rewrite Z.pow_add_r by lia; lia).
  set (c := - (- n / d)). set (f := n / d).
  assert (Hc : (c - 1) * d < n <= c * d).
  { unfold c. pose proof (Z.div_mod (- n) d ltac:(lia)).
    pose proof (Z.mod_pos_bound (- n) d ltac:(lia)). nia. }
  assert (Hf : f * d <= n < (f + 1) * d).
  { unfold f. pose proof (Z.div_mod n d ltac:(lia)).
    pose proof (Z.mod_pos_bound n d ltac:(lia)). nia. }
  destruct (round_quot_cases (n * 2 ^ A) d Hd) as (Hq & Hr & Hm).
  fold m in Hm.
  set (q := n * 2 ^ A / d) in *. set (r := (n * 2 ^ A) mod d) in *.
  assert (Hq1 : (c - 1) * 2 ^ A <= q)
    by (apply Z.div_le_lower_bound; [lia | nia]).
  assert (Hq2 : q <= c * 2 ^ A)
    by (apply Z.div_le_upper_bound; [lia | nia]).
  assert (Hq3 : f * 2 ^ A <= q)
    by (apply Z.div_le_lower_bound; [lia | nia]).
  assert (Hq4 : q < (f + 1) * 2 ^ A)
    by (apply Z.div_lt_upper_bound; [lia | nia]).
  destruct Hm as [[-> Hh] | [-> Hh]].
  - repeat split; try lia.
    destruct (Z.eq_dec q ((c - 1) * 2 ^ A)) as [E|E]; [|lia].
    exfalso. assert (r = (n - (c - 1) * d) * 2 ^ A) by nia. nia.
  - repeat split; try lia.
    + destruct (Z.eq_dec q (c * 2 ^ A)) as [E|E]; [|lia].
      exfalso. assert (r = (n - c * d) * 2 ^ A) by nia. nia.
    + destruct (Z.eq_dec (q + 1) ((f + 1) * 2 ^ A)) as [E|E]; [|lia].
      exfalso. assert (r = (n - (f + 1) * d) * 2 ^ A + d) by nia. nia.
Qed.

Lemma round_quot_zero (den : Z) : 0 < den -> round_quot 0 den = 0.
Proof.
  intros H. unfold round_quot. rewrite Z.div_0_l, Z.mod_0_l by lia.
  replace (den <? 2 * 0) with false by (symmetry; apply Z.ltb_ge; lia).
  replace (2 * 0 =? den) with false by (symmetry; apply Z.eqb_neq; lia).
  reflexivity.
Qed.

Lemma quot_round_zero (d : Z) : 0 < d -> exists e, quot_round 0 d = (0, e).
Proof.
  intros H. unfold quot_round. eexists. f_equal.
  rewrite Z.mul_0_l. apply round_quot_zero.
  apply Z.mul_pos_pos; [lia|]. apply Z.pow_pos_nonneg; lia.
Qed.

(** While the dividend is at most [max_safe], rounding the quotient first
    does not change its ceiling. *)
Lemma ceil_quot_safe (x y : Z) :
  0 <= x <= max_safe -> y <> 0 -> - 2 ^ 1024 < y < 2 ^ 1024 ->
  ceil_quot x y = - (- x / y).
Proof.
  unfold max_safe. intros Hx Hy0 Hy.
  assert (Hya : 0 < Z.abs y) by (now apply Z.abs_pos).
  assert (Hyb : Z.abs y < 2 ^ 1024) by (apply Z.abs_lt; exact Hy).
  clear Hy.
  destruct (Z.eq_dec x 0) as [->|Hx0].
  { destruct (quot_round_zero (Z.abs y) Hya) as [e He].
    unfold ceil_quot. change (Z.abs 0) with 0. rewrite He.
    destruct (0 <=? e), (xorb (0 <? 0) (y <? 0)); reflexivity. }
  destruct (quot_exponent x (Z.abs y) ltac:(lia) (conj Hya Hyb))
    as (A & HA & Hlt & Heq).
  clear Hyb.
  unfold ceil_quot. rewrite (Z.abs_eq x) by lia. rewrite Heq.
  replace (x <? 0) with false by (symmetry; apply Z.ltb_ge; lia).
  cbn [xorb].
  destruct (round_quot_between x (Z.abs y) A ltac:(lia) Hya HA Hlt)
    as [[Hc1 Hc2] [Hf1 Hf2]].
  set (m := round_quot (x * 2 ^ A) (Z.abs y)) in *.
  assert (HP : 0 < 2 ^ A) by (apply Z.pow_pos_nonneg; lia).
  rewrite Z.opp_involutive.
  destruct (Z.ltb_spec y 0) as [Hneg|Hpos].
  -     assert (Hfl : - x / y = x / Z.abs y).
    { rewrite (Z.abs_neq y) by lia.
      rewrite <- (Z.div_opp_opp x (- y)) by lia.
      now rewrite Z.opp_involutive. }
    rewrite Hfl.
    destruct (Z.leb_spec 0 (- A)) as [H0|H0].
    + assert (A = 0) by lia. subst A. change (- 0) with 0.
      rewrite Z.pow_0_r in *. lia.
    + f_equal. symmetry. apply Z.div_unique_pos with (r := m - x / Z.abs y * 2 ^ A); lia.
  -     rewrite (Z.abs_eq y) in * by lia.
    destruct (Z.leb_spec 0 (- A)) as [H0|H0].
    + assert (A = 0) by lia. subst A. change (- 0) with 0.
      rewrite Z.pow_0_r in *. lia.
    + f_equal. symmetry.
      apply Z.div_unique_pos with (r := - (- x / y) * 2 ^ A - m); lia.
Qed.

End NumberFacts.

(** ** The [trim] setter *)

Section TrimFacts.

Lemma trimEnd_idempotent (s : string) : trimEnd (trimEnd s) = trimEnd s.
Proof.
  induction s as [|c s IH]; simpl; [reflexivity|].
  destruct (trimEnd s) as [|x r] eqn:E.
  - destruct (is_whitespace c) eqn:W; simpl; [reflexivity | now rewrite W].
  - cbn [trimEnd]. fold trimEnd. cbn [trimEnd] in IH. now rewrite IH.
Qed.

Lemma trimStart_head (s : string) :
  trimStart s = EmptyString \/
  exists c r, trimStart s = String c r /\ is_whitespace c = false.
Proof.
  induction s as [|c s IH]; simpl; [now left|].
  destruct (is_whitespace c) eqn:W; [assumption|].
  right. now exists c, s.
Qed.

Lemma trimEnd_head (c : ascii) (r : string) :
  is_whitespace c = false -> exists r', trimEnd (String c r) = String c r'.
Proof.
  intros W. simpl. destruct (trimEnd r); [rewrite W|]; eauto.
Qed.

Lemma trim_idempotent (s : string) : trim (trim s) = trim s.
Proof.
  unfold trim.
  assert (H : trimStart (trimEnd (trimStart s)) = trimEnd (trimStart s)).
  { destruct (trimStart_head s) as [-> | (c & r & -> & W)]; [reflexivity|].
    destruct (trimEnd_head c r W) as [r' ->]. simpl. now rewrite W. }
  rewrite H. apply trimEnd_idempotent.
Qed.

End TrimFacts.

(** ** The service *)

Open Scope list_scope.

Section Service.
Context {drv : Driver}.

(** *** The model on small inputs *)

Example parseInt_decimal : parseInt "12px" = Fin 12.
Proof. reflexivity. Qed.

Example parseInt_hex : parseInt "  -0x1f" = Fin (-31).
Proof. reflexivity. Qed.

Example parseInt_rounds : parseInt "9007199254740993" = Fin 9007199254740992.
Proof. reflexivity. Qed.

Example to_double_ties_to_even :
  to_double (2 ^ 53 + 1) = Fin (2 ^ 53) /\
  to_double (2 ^ 53 + 3) = Fin (2 ^ 53 + 4) /\
  to_double (- (2 ^ 53 + 3)) = Fin (- (2 ^ 53 + 4)).
Proof. repeat split. Qed.

Example to_double_overflow :
  to_double (2 ^ 1024 - 2 ^ 970 - 1) = Fin (2 ^ 1024 - 2 ^ 971) /\
  to_double (2 ^ 1024 - 2 ^ 970) = Inf false /\
  to_double (- 2 ^ 1024) = Inf true.
Proof. repeat split. Qed.

Example ceil_quot_rounds_first :
  ceil_quot (2 ^ 60) 3 = 384307168202282304 /\
  - (- 2 ^ 60 / 3) = 384307168202282326.
Proof. split; vm_compute; reflexivity. Qed.

Example ceil_div_infinite_limit : ceil_div (Fin 12) (Inf false) = Fin 0.
Proof. reflexivity. Qed.

Example parseInt_nan : parseInt "abc" = NaN /\ parseInt EmptyString = NaN.
Proof. split; reflexivity. Qed.

Example trim_both_ends : trim "  a b  " = "a b".
Proof. reflexivity. Qed.

Example validator_needs_a_path :
  telegram_link_validator "https://t.me/" = false /\
  telegram_link_validator "http://telegram.me/x" = true /\
  telegram_link_validator "https://t.me.evil.example/x" = false.
Proof. repeat split. Qed.

Example ceil_div_12_5 : ceil_div (Fin 12) (Fin 5) = Fin 3.
Proof. reflexivity. Qed.

Example ceil_div_by_zero : ceil_div (Fin 12) (Fin 0) = Inf false.
Proof. reflexivity. Qed.

Example create_then_update_own_link :
  let st := store_after (post Sample.env0 Sample.body_abc) [] in
  st = Sample.store_abc /\
  status (response_of
            (put (drv := hex24) Sample.env1 "AAAAAAAAAAAAAAAAAAAAAAAA"
               {| req_telegram_link := Str "https://t.me/abc";
                  req_owner_name := Str "Robert" |}) st) = 200 /\
  status (response_of (get_by_id (drv := hex24) "not-an-id") st) = 500 /\
  status (response_of (delete (drv := hex24) "cccccccccccccccccccccccc") st)
  = 404.
Proof. repeat split. Qed.

(** *** The presence guard of the write routes *)

(** C9. When [telegram_link] or [owner_name] of the body is the empty string
    or another falsy value, [POST /] and [PUT /:id] answer 400 with
    [{success: false, error: 'Both telegram_link and owner_name are
    required'}] and no [details], call no model method (no lookup, no
    validation) and leave the collection as it is. *)
Theorem missing_field_rejected
  (env : Env) (id : string) (b : Body) (st : Collection) :
  truthy (req_telegram_link b) = false \/ truthy (req_owner_name b) = false ->
  post env b st = (missing_fields, st, []) /\
  put env id b st = (missing_fields, st, []) /\
  status missing_fields = 400 /\
  body missing_fields =
    JObj [("success", JBool false);
          ("error", JStr "Both telegram_link and owner_name are required")].
Proof.
  intros H.
  assert (G : negb (truthy (req_telegram_link b))
              || negb (truthy (req_owner_name b)) = true).
  { destruct H as [H | H]; rewrite H; simpl; auto using orb_true_r. }
  unfold post, put, try_catch. rewrite G. repeat split.
Qed.

(** *** Deleting *)

Lemma remove_first_split (oid : ObjectId) (st : Collection) :
  (List.find (has_id oid) st = None /\ remove_first oid st = st) \/
  (exists l1 d l2,
      st = (l1 ++ d :: l2)%list /\ remove_first oid st = (l1 ++ l2)%list /\
      has_id oid d = true /\ List.find (has_id oid) st = Some d /\
      forall x, In x l1 -> has_id oid x = false).
Proof.
  induction st as [|x st IH]; simpl.
  - now left.
  - destruct (has_id oid x) eqn:E.
    + right. exists [], x, st. repeat split; auto. intros y [].
    + destruct IH as [[Hf Hr] | (l1 & d & l2 & -> & Hr & Hd & Hf & Hl)].
      * left. now rewrite Hr.
      * right. exists (x :: l1), d, l2. rewrite Hr. repeat split; auto.
        intros y [<- | Hy]; auto.
Qed.

Lemma delete_eq (id : string) (st : Collection) :
  delete id st =
  match castObjectId id with
  | Some oid =>
      match List.find (has_id oid) st with
      | Some _ =>
          ({| status := 200;
              body := JObj [("success", JBool true);
                            ("message",
                             JStr "Telegram link deleted successfully")] |},
           remove_first oid st, [FindByIdAndDelete])
      | None =>
          (failure 404 "Telegram link not found", remove_first oid st,
           [FindByIdAndDelete])
      end
  | None => (failure 500 "Failed to delete telegram link", st,
             [FindByIdAndDelete])
  end.
Proof.
  unfold delete, try_catch, bind, findByIdAndDelete, call, ret.
  destruct (castObjectId id) as [oid|]; [|reflexivity].
  destruct (List.find (has_id oid) st); reflexivity.
Qed.

(** C10. [DELETE /:id] removes at most the one record whose identifier is
    [id]: the records with another identifier are the same, in the same
    order, after the call as before it, whether it answers 200 (one record
    with that identifier is gone) or 404 (nothing is gone). *)
Theorem delete_frame (id : string) (st : Collection) :
  let st' := store_after (delete id) st in
  let r := response_of (delete id) st in
  filter (fun d => negb (id_is id d)) st' =
  filter (fun d => negb (id_is id d)) st /\
  (List.length st <= List.length st' + 1)%nat /\
  (status r = 404 -> st' = st) /\
  (status r = 200 ->
   exists l1 d l2, st = (l1 ++ d :: l2)%list /\ st' = (l1 ++ l2)%list /\
                   castObjectId id = Some (_id d)) /\
  (status r = 200 \/ status r = 404 \/ (status r = 500 /\ st' = st)).
Proof.
  unfold store_after, response_of, id_is. rewrite delete_eq.
  destruct (castObjectId id) as [oid|] eqn:Hc; simpl.
  2:{ repeat split; auto; try lia; discriminate. }
  destruct (remove_first_split oid st)
    as [[Hf Hr] | (l1 & d & l2 & E & Hr & Hd & Hf & Hl)];
    rewrite Hf, Hr; simpl.
  - repeat split; auto; try lia; discriminate.
  - subst st. repeat split; auto; try discriminate.
    + rewrite !filter_app. simpl. now rewrite Hd.
    + rewrite !length_app. simpl. lia.
    + intros _. exists l1, d, l2. repeat split.
      unfold has_id in Hd. apply String.eqb_eq in Hd. now rewrite Hd.
Qed.

(** *** The response envelope *)




(** The response of a [try]/[catch] handler has a property when the response
    the body returns and the response the [catch] block builds have it. *)
Lemma try_catch_response (P : Response -> Prop) (m : M Response)
  (h : Error -> Response) (st : Collection) :
  (forall r st' l, m st = (Ok r, st', l) -> P r) ->
  (forall e, P (h e)) ->
  P (response_of (try_catch m h) st).
Proof.
  intros Hok Herr. unfold response_of, try_catch.
  destruct (m st) as [[[r|e] st'] l]; simpl; eauto.
Qed.



(** *** What the write routes compute *)

Lemma find_existsb (f : Doc -> bool) (st : Collection) :
  match List.find f st with Some _ => true | None => false end = existsb f st.
Proof.
  induction st as [|d st IH]; simpl; [reflexivity|].
  destruct (f d); auto.
Qed.

Lemma validate_update_nil (link owner : string) :
  validate_update link owner = [] <-> validate link owner = [].
Proof.
  unfold validate_update, validate.
  destruct (validate_telegram_link link), (validate_owner_name owner);
    simpl; split; intros H; try discriminate H; reflexivity.
Qed.

Lemma post_eq (env : Env) (b : Body) (st : Collection) :
  let link := asString (req_telegram_link b) in
  let owner := asString (req_owner_name b) in
  post env b st =
  if negb (truthy (req_telegram_link b)) || negb (truthy (req_owner_name b))
  then (missing_fields, st, [])
  else if link_stored (trim link) st then (duplicate_link, st, [FindOne])
  else match validate (trim link) (trim owner) with
       | [] =>
           if id_stored (new_id env) st
           then (failure 500 "Failed to create telegram link", st,
                 [FindOne; Save])
           else (created (new_doc env link owner),
                 (st ++ [new_doc env link owner])%list, [FindOne; Save])
       | errs => (validation_failed errs, st, [FindOne; Save])
       end.
Proof.
  intros link owner. unfold post, try_catch.
  destruct (negb _ || negb _); [reflexivity|].
  unfold bind, findOne_link, save, call, ret, link_stored, id_stored.
  fold link owner. rewrite <- find_existsb.
  destruct (List.find _ st); [reflexivity|].
  cbn [new_doc telegram_link owner_name _id].
  destruct (validate (trim link) (trim owner)); [|reflexivity].
  destruct (existsb _ st); reflexivity.
Qed.

Lemma put_eq (env : Env) (id : string) (b : Body) (st : Collection) :
  let link := asString (req_telegram_link b) in
  let owner := asString (req_owner_name b) in
  put env id b st =
  if negb (truthy (req_telegram_link b)) || negb (truthy (req_owner_name b))
  then (missing_fields, st, [])
  else match castObjectId id with
       | None => (failure 500 "Failed to update telegram link", st, [FindOne])
       | Some oid =>
           if link_stored_elsewhere (trim link) oid st
           then (duplicate_link, st, [FindOne])
           else match validate_update (trim link) (trim owner) with
                | [] =>
                    match List.find (has_id oid) st with
                    | Some d =>
                        (updated (set_fields env (trim link) (trim owner) d),
                         update_first oid
                           (set_fields env (trim link) (trim owner)) st,
                         [FindOne; FindByIdAndUpdate])
                    | None => (not_found, st, [FindOne; FindByIdAndUpdate])
                    end
                | errs =>
                    (validation_failed errs, st, [FindOne; FindByIdAndUpdate])
                end
       end.
Proof.
  intros link owner. unfold put, try_catch.
  destruct (negb _ || negb _); [reflexivity|].
  unfold bind, findOne_link_ne, findByIdAndUpdate, call, ret,
    link_stored_elsewhere.
  fold link owner.
  destruct (castObjectId id) as [oid|]; [|reflexivity].
  rewrite <- find_existsb.
  destruct (List.find _ st); [reflexivity|].
  destruct (validate_update (trim link) (trim owner)); [|reflexivity].
  destruct (List.find (has_id oid) st); reflexivity.
Qed.

Lemma reads_keep_store (q : ListQuery) (id : string) (st : Collection) :
  store_after (get_list q) st = st /\
  store_after get_owners st = st /\
  store_after (get_by_id id) st = st.
Proof.
  unfold store_after, get_list, get_owners, get_by_id, try_catch, bind,
    find, countDocuments, distinct_owner_name, findById, call, ret.
  repeat split.
  - destruct (select _ st) eqn:Hs; [|reflexivity].
    destruct (window _ _ _); simpl; [|reflexivity].
    now rewrite Hs.
  - destruct (castObjectId id); [|reflexivity].
    destruct (List.find _ st); reflexivity.
Qed.

(** *** Uniqueness of the links *)

Lemma existsb_false_in {A : Type} (f : A -> bool) (l : list A) :
  existsb f l = false -> forall x, In x l -> f x = false.
Proof.
  intros H x Hx. destruct (f x) eqn:E; [|reflexivity].
  rewrite <- H. symmetry. apply existsb_exists. eauto.
Qed.

Lemma link_not_stored (link : string) (st : Collection) :
  link_stored link st = false -> ~ In link (map telegram_link st).
Proof.
  intros H Hin. apply in_map_iff in Hin as (d & <- & Hd).
  apply (existsb_false_in _ _ H) in Hd. simpl in Hd.
  now rewrite String.eqb_refl in Hd.
Qed.

Lemma id_not_stored (oid : ObjectId) (st : Collection) :
  id_stored oid st = false -> ~ In oid (map _id st).
Proof.
  intros H Hin. apply in_map_iff in Hin as (d & <- & Hd).
  apply (existsb_false_in _ _ H) in Hd. unfold has_id in Hd.
  now rewrite String.eqb_refl in Hd.
Qed.

Lemma append_consistent (d : Doc) (st : Collection) :
  consistent st ->
  id_stored (_id d) st = false ->
  link_stored (telegram_link d) st = false ->
  consistent (st ++ [d]).
Proof.
  intros [Hi Hl] Hid Hlink. unfold consistent, unique_ids, unique_links.
  rewrite !map_app. simpl.
  split; apply NoDup_app; auto; try (repeat constructor; simpl; tauto);
    intros a Ha [<- | []]; revert Ha.
  - now apply id_not_stored.
  - now apply link_not_stored.
Qed.

Lemma update_first_ids (oid : ObjectId) (f : Doc -> Doc) (st : Collection) :
  (forall d, _id (f d) = _id d) ->
  map _id (update_first oid f st) = map _id st.
Proof.
  intros Hf. induction st as [|d st IH]; simpl; [reflexivity|].
  destruct (has_id oid d); simpl; [now rewrite Hf | now rewrite IH].
Qed.

Lemma update_first_links_in (oid : ObjectId) (f : Doc -> Doc) (link : string)
  (st : Collection) (x : string) :
  (forall d, telegram_link (f d) = link) ->
  In x (map telegram_link (update_first oid f st)) ->
  x = link \/ In x (map telegram_link st).
Proof.
  intros Hf. induction st as [|d st IH]; simpl; [tauto|].
  destruct (has_id oid d); simpl.
  - rewrite Hf. intuition.
  - intuition.
Qed.

Lemma update_first_consistent (oid : ObjectId) (f : Doc -> Doc)
  (link : string) (st : Collection) :
  (forall d, _id (f d) = _id d) ->
  (forall d, telegram_link (f d) = link) ->
  consistent st ->
  link_stored_elsewhere link oid st = false ->
  consistent (update_first oid f st).
Proof.
  intros Hid Hlink [Hi Hl] He. split.
  - unfold unique_ids. now rewrite update_first_ids.
  - unfold unique_ids, unique_links in *.
    induction st as [|d st IH]; simpl; [constructor|].
    simpl in Hi, Hl, He.
    apply NoDup_cons_iff in Hi as [Hi1 Hi2].
    apply NoDup_cons_iff in Hl as [Hl1 Hl2].
    apply orb_false_iff in He as [Hd He].
    destruct (has_id oid d) eqn:E; simpl.
    + rewrite Hlink. constructor; [|assumption].
      intros Hin. apply in_map_iff in Hin as (d' & Hd' & Hin).
      pose proof (existsb_false_in _ _ He d' Hin) as H. simpl in H.
      rewrite <- Hd', String.eqb_refl in H. simpl in H.
      apply negb_false_iff in H. unfold has_id in E, H.
      apply String.eqb_eq in E, H. apply Hi1.
      rewrite E, <- H. now apply in_map.
    + constructor; [|now apply IH].
      intros Hin.
      apply (update_first_links_in oid f link) in Hin as [Hin | Hin]; auto.
      rewrite Hin, String.eqb_refl in Hd. discriminate.
Qed.

Lemma remove_first_incl (oid : ObjectId) (st : Collection) (g : Doc -> string)
  (x : string) :
  In x (map g (remove_first oid st)) -> In x (map g st).
Proof.
  induction st as [|d st IH]; simpl; [tauto|].
  destruct (has_id oid d); simpl; intuition.
Qed.

Lemma remove_first_nodup (oid : ObjectId) (st : Collection)
  (g : Doc -> string) :
  NoDup (map g st) -> NoDup (map g (remove_first oid st)).
Proof.
  induction st as [|d st IH]; simpl; [auto|].
  intros H. apply NoDup_cons_iff in H as [H1 H2].
  destruct (has_id oid d); simpl; [assumption|].
  constructor; [|auto].
  intros Hin. now apply remove_first_incl in Hin.
Qed.

(** Every route keeps the collection consistent. *)
Lemma handle_consistent (env : Env) (rq : Request) (st : Collection) :
  consistent st -> consistent (store_after (handle env rq) st).
Proof.
  intros H. destruct rq as [q | | id | b | id b | id]; cbn [handle].
  - rewrite (proj1 (reads_keep_store q EmptyString st)). exact H.
  - rewrite
      (proj1 (proj2 (reads_keep_store (Build_ListQuery None None None)
                       EmptyString st))). exact H.
  - rewrite
      (proj2 (proj2 (reads_keep_store (Build_ListQuery None None None)
                       id st))). exact H.
  - unfold store_after. rewrite post_eq.
    destruct (negb _ || negb _); [assumption|].
    destruct (link_stored _ st) eqn:Hl; [assumption|].
    destruct (validate _ _); [|assumption].
    destruct (id_stored _ st) eqn:Hi; [assumption|].
    simpl. now apply append_consistent.
  - unfold store_after. rewrite put_eq.
    destruct (negb _ || negb _); [assumption|].
    destruct (castObjectId id) as [oid|]; [|assumption].
    destruct (link_stored_elsewhere _ _ st) eqn:Hl; [assumption|].
    destruct (validate_update _ _); [|assumption].
    destruct (List.find _ st); [|assumption].
    simpl.
    apply update_first_consistent
      with (link := trim (asString (req_telegram_link b))); auto.
  - unfold store_after. rewrite delete_eq.
    destruct (castObjectId id) as [oid|]; [|assumption].
    destruct H as [Hi Hl].
    destruct (List.find _ st); simpl; split; now apply remove_first_nodup.
Qed.

Lemma serve_consistent (reqs : list (Env * Request)) :
  forall st, consistent st -> consistent (serve reqs st).
Proof.
  induction reqs as [|[env rq] reqs IH]; simpl; intros st H; [assumption|].
  apply IH. now apply handle_consistent.
Qed.

(** C2. After any sequence of requests served one after the other from the
    empty collection (creations, updates and deletions, and reads as well),
    no two records store the same [telegram_link], equality being that of
    the strings. *)
Theorem links_unique (reqs : list (Env * Request)) :
  unique_links (serve reqs []).
Proof.
  apply (serve_consistent reqs []). split; constructor.
Qed.

(** *** Stored records went through the schema *)

Lemma update_first_forall (P : Doc -> Prop) (oid : ObjectId) (f : Doc -> Doc)
  (st : Collection) :
  (forall d, P (f d)) -> Forall P st -> Forall P (update_first oid f st).
Proof.
  intros Hf. induction 1 as [|d st Hd Hst IH]; simpl; [constructor|].
  destruct (has_id oid d); constructor; auto.
Qed.

Lemma remove_first_forall (P : Doc -> Prop) (oid : ObjectId)
  (st : Collection) :
  Forall P st -> Forall P (remove_first oid st).
Proof.
  induction 1 as [|d st Hd Hst IH]; simpl; [constructor|].
  destruct (has_id oid d); [assumption | constructor; auto].
Qed.

Lemma handle_schema (env : Env) (rq : Request) (st : Collection) :
  Forall schema_ok st -> Forall schema_ok (store_after (handle env rq) st).
Proof.
  intros H. destruct rq as [q | | id | b | id b | id]; cbn [handle].
  - rewrite (proj1 (reads_keep_store q EmptyString st)). exact H.
  - rewrite
      (proj1 (proj2 (reads_keep_store (Build_ListQuery None None None)
                       EmptyString st))). exact H.
  - rewrite
      (proj2 (proj2 (reads_keep_store (Build_ListQuery None None None)
                       id st))). exact H.
  - unfold store_after. rewrite post_eq.
    destruct (negb _ || negb _); [assumption|].
    destruct (link_stored _ st); [assumption|].
    destruct (validate _ _) eqn:Hv; [|assumption].
    destruct (id_stored _ st); [assumption|].
    simpl. apply Forall_app. split; [assumption|].
    repeat constructor; simpl; auto using trim_idempotent.
  - unfold store_after. rewrite put_eq.
    destruct (negb _ || negb _); [assumption|].
    destruct (castObjectId id) as [oid|]; [|assumption].
    destruct (link_stored_elsewhere _ _ st); [assumption|].
    destruct (validate_update _ _) eqn:Hv; [|assumption].
    apply validate_update_nil in Hv.
    destruct (List.find _ st); [|assumption].
    simpl. apply update_first_forall; [|assumption].
    intros d0. repeat split; simpl; auto using trim_idempotent.
  - unfold store_after. rewrite delete_eq.
    destruct (castObjectId id) as [oid|]; [|assumption].
    destruct (List.find _ st); simpl; now apply remove_first_forall.
Qed.

Lemma serve_well_formed (reqs : list (Env * Request)) :
  forall st, well_formed st -> well_formed (serve reqs st).
Proof.
  induction reqs as [|[env rq] reqs IH]; simpl; intros st [Hc Hs];
    [now split|].
  apply IH. split; [now apply handle_consistent | now apply handle_schema].
Qed.

Lemma empty_well_formed : well_formed [].
Proof. repeat split; constructor. Qed.

Lemma schema_ok_link (d : Doc) :
  schema_ok d ->
  trim (telegram_link d) = telegram_link d /\
  truthy (Str (telegram_link d)) = true.
Proof.
  intros (Ht & _ & Hv). split; [assumption|].
  unfold validate, validate_telegram_link in Hv. simpl.
  destruct (telegram_link d); [discriminate Hv | reflexivity].
Qed.

Lemma link_stored_in (d : Doc) (st : Collection) :
  In d st -> link_stored (telegram_link d) st = true.
Proof.
  intros H. apply existsb_exists. exists d. split; [assumption|].
  apply String.eqb_refl.
Qed.

(** *** Creating with a stored link *)

(** C3, as the code has it. In a collection the service built, a creation
    whose [telegram_link] is a stored link and whose [owner_name] is not
    empty is answered 409 [Telegram link already exists]; it looked the link
    up and did nothing else, and the collection is as before. *)
Theorem duplicate_create_rejected
  (env : Env) (reqs : list (Env * Request)) (d : Doc) (owner : value) :
  In d (serve reqs []) ->
  truthy owner = true ->
  post env {| req_telegram_link := Str (telegram_link d);
              req_owner_name := owner |} (serve reqs [])
  = (duplicate_link, serve reqs [], [FindOne]) /\
  status duplicate_link = 409.
Proof.
  intros Hin Ho. split; [|reflexivity].
  destruct (serve_well_formed reqs [] empty_well_formed) as [_ Hs].
  rewrite Forall_forall in Hs.
  destruct (schema_ok_link d (Hs d Hin)) as [Ht Hl].
  rewrite post_eq. cbn [req_telegram_link req_owner_name asString].
  rewrite Hl, Ho. cbn [negb orb]. rewrite Ht.
  now rewrite (link_stored_in d _ Hin).
Qed.

(** *** Updating an absent record *)

Lemma elsewhere_absent (link : string) (oid : ObjectId) (st : Collection) :
  id_stored oid st = false ->
  link_stored_elsewhere link oid st = link_stored link st.
Proof.
  unfold id_stored, link_stored_elsewhere, link_stored.
  induction st as [|d st IH]; simpl; [reflexivity|].
  intros H. apply orb_false_iff in H as [Hd Hst].
  rewrite Hd, (IH Hst). simpl. now rewrite andb_true_r.
Qed.

Lemma find_absent (oid : ObjectId) (st : Collection) :
  id_stored oid st = false -> List.find (has_id oid) st = None.
Proof.
  unfold id_stored. rewrite <- find_existsb.
  destruct (List.find _ st); [discriminate | reflexivity].
Qed.

(** C1, as the code has it. [PUT /:id] with both fields non-empty and a
    well-formed [id] that no record has: the answer is 409 when some record
    stores the (trimmed) link, else 400 with the messages of the update
    validators (that of the owner name before that of the link) when a
    (trimmed) value fails its validators, and 404 otherwise; the collection
    is unchanged in each case. *)
Theorem update_absent_id
  (env : Env) (id : string) (oid : ObjectId) (b : Body) (st : Collection) :
  castObjectId id = Some oid ->
  id_stored oid st = false ->
  truthy (req_telegram_link b) = true ->
  truthy (req_owner_name b) = true ->
  let link := trim (asString (req_telegram_link b)) in
  let owner := trim (asString (req_owner_name b)) in
  put env id b st =
  (if link_stored link st then (duplicate_link, st, [FindOne])
   else match validate_update link owner with
        | [] => (not_found, st, [FindOne; FindByIdAndUpdate])
        | errs => (validation_failed errs, st, [FindOne; FindByIdAndUpdate])
        end) /\
  status duplicate_link = 409 /\
  status not_found = 404 /\
  (forall errs, status (validation_failed errs) = 400).
Proof.
  intros Hc Ha Hl Ho link owner. repeat split.
  rewrite put_eq, Hl, Ho, Hc. cbn [negb orb].
  rewrite (elsewhere_absent _ _ _ Ha), (find_absent _ _ Ha).
  fold link owner. destruct (link_stored link st); [reflexivity|].
  destruct (validate_update link owner); reflexivity.
Qed.

(** *** The list route *)

Lemma to_double_exact (z : Z) :
  - max_safe <= z <= max_safe -> to_double z = Fin z.
Proof.
  unfold max_safe, to_double, round53. intros H.
  replace (Z.abs z <? 2 ^ 53) with true by (symmetry; apply Z.ltb_lt; lia).
  replace (Z.abs z <? 2 ^ 1024) with true; [reflexivity|].
  symmetry. apply Z.ltb_lt. apply Z.lt_trans with (2 ^ 53); [lia|].
  reflexivity.
Qed.

Lemma skip_safe (q : ListQuery) (p s : Z) :
  pageNum q = Fin p ->
  limitNum q = Fin s ->
  1 <= p ->
  1 <= s ->
  (p - 1) * s <= max_safe ->
  skip q = Fin ((p - 1) * s).
Proof.
  intros Hp Hl Hp1 Hs1 Hb. unfold skip. rewrite Hp, Hl. cbn [num_sub].
  rewrite (to_double_exact (p - 1)) by (unfold max_safe in *; nia).
  cbn [num_mul]. apply to_double_exact. unfold max_safe in *. nia.
Qed.

Lemma window_safe (k n : Z) (l : list Doc) :
  0 <= k <= max_safe ->
  1 <= n <= max_safe ->
  window (Fin k) (Fin n) l
  = Some (firstn (Z.to_nat n) (skipn (Z.to_nat k) l)).
Proof.
  intros [Hk1 Hk2] [Hn1 Hn2]. unfold window.
  apply Z.leb_le in Hk1, Hk2, Hn1, Hn2.
  now rewrite Hk1, Hk2, Hn1, Hn2.
Qed.

Lemma ceil_div_safe (total s : Z) :
  0 <= total <= max_safe ->
  1 <= s <= max_safe ->
  ceil_div (to_double total) (Fin s) = Fin (- (- total / s)).
Proof.
  intros Ht Hs.
  rewrite to_double_exact by (unfold max_safe in *; lia).
  unfold ceil_div.
  replace (s =? 0) with false by (symmetry; lia).
  rewrite ceil_quot_safe; [reflexivity | exact Ht | lia |].
  unfold max_safe in Hs. split.
  - apply Z.lt_trans with 0; [reflexivity | lia].
  - apply Z.le_lt_trans with (2 ^ 53 - 1); [lia | reflexivity].
Qed.

(** The page of the selected records, while the numbers stay within the
    integers that doubles hold exactly. *)
Lemma page_of_safe (q : ListQuery) (sel : list Doc) (p s : Z) :
  pageNum q = Fin p ->
  limitNum q = Fin s ->
  1 <= p ->
  1 <= s <= max_safe ->
  (p - 1) * s <= max_safe ->
  window (skip q) (limitNum q) (sort_desc sel)
  = Some (firstn (Z.to_nat s) (skipn (Z.to_nat ((p - 1) * s)) (sort_desc sel))).
Proof.
  intros Hp Hl Hp1 [Hs1 Hs2] Hb.
  rewrite (skip_safe q p s Hp Hl Hp1 Hs1 Hb), Hl.
  apply window_safe; [nia | lia].
Qed.

Lemma get_list_eq (q : ListQuery) (st : Collection) :
  response_of (get_list q) st =
  match select (query q) st with
  | Some sel => page_of q sel
  | None => failure 500 "Failed to fetch telegram links"
  end.
Proof.
  unfold response_of, get_list, try_catch, bind, find, countDocuments, call,
    ret, page_of.
  destruct (select (query q) st) as [sel|] eqn:Hs; [|reflexivity].
  destruct (window _ _ _); simpl; [|reflexivity].
  now rewrite Hs.
Qed.

Lemma insert_desc_perm (d : Doc) (l : list Doc) :
  Permutation (insert_desc d l) (d :: l).
Proof.
  induction l as [|x l IH]; simpl; [reflexivity|].
  destruct (createdAt x <=? createdAt d); [reflexivity|].
  rewrite IH. apply perm_swap.
Qed.

Lemma sort_desc_perm (l : list Doc) : Permutation (sort_desc l) l.
Proof.
  induction l as [|d l IH]; simpl; [reflexivity|].
  rewrite insert_desc_perm. now constructor.
Qed.

Lemma insert_desc_sorted (d : Doc) (l : list Doc) :
  StronglySorted newer_first l -> StronglySorted newer_first (insert_desc d l).
Proof.
  induction 1 as [|x l Hl IH Hx]; simpl.
  - repeat constructor.
  - destruct (createdAt x <=? createdAt d) eqn:E.
    + apply Z.leb_le in E. constructor; [now constructor|].
      constructor; [exact E|].
      rewrite Forall_forall in *. intros y Hy. specialize (Hx y Hy).
      unfold newer_first in *. lia.
    + apply Z.leb_gt in E. constructor; [assumption|].
      rewrite Forall_forall in *. intros y Hy.
      apply (Permutation_in _ (insert_desc_perm d l)) in Hy as [<- | Hy];
        [unfold newer_first; lia | auto].
Qed.

Lemma sort_desc_sorted (l : list Doc) : StronglySorted newer_first (sort_desc l).
Proof.
  induction l as [|d l IH]; simpl; [constructor|].
  now apply insert_desc_sorted.
Qed.

Lemma firstn_forall (P : Doc -> Prop) (n : nat) (l : list Doc) :
  Forall P l -> Forall P (firstn n l).
Proof.
  intros H. revert n. induction H as [|x l Hx Hl IH]; intros [|n]; simpl;
    constructor; auto.
Qed.

Lemma firstn_sorted (n : nat) (l : list Doc) :
  StronglySorted newer_first l -> StronglySorted newer_first (firstn n l).
Proof.
  intros H. revert n. induction H as [|x l Hl IH Hx]; intros [|n]; simpl;
    constructor; auto using firstn_forall.
Qed.

Lemma skipn_sorted (n : nat) (l : list Doc) :
  StronglySorted newer_first l -> StronglySorted newer_first (skipn n l).
Proof.
  revert l. induction n as [|n IH]; intros l H; simpl; [assumption|].
  destruct l as [|x l]; [constructor|].
  apply IH. now inversion H.
Qed.

Lemma window_past_end (q : ListQuery) (sel : list Doc) (p s : Z) :
  pageNum q = Fin p ->
  limitNum q = Fin s ->
  1 <= p ->
  1 <= s <= max_safe ->
  (p - 1) * s <= max_safe ->
  Z.of_nat (List.length sel) <= (p - 1) * s ->
  window (skip q) (limitNum q) (sort_desc sel) = Some [].
Proof.
  intros Hp Hl Hp1 Hs Hb Hend.
  rewrite (page_of_safe q sel p s Hp Hl Hp1 Hs Hb).
  rewrite skipn_all2, firstn_nil; [reflexivity|].
  rewrite (Permutation_length (sort_desc_perm sel)). lia.
Qed.

Lemma ceil_div_bounds (total s : Z) :
  1 <= s -> (- (- total / s) - 1) * s < total <= - (- total / s) * s.
Proof.
  intros Hs.
  pose proof (Z.div_mod (- total) s ltac:(lia)) as E.
  pose proof (Z.mod_pos_bound (- total) s ltac:(lia)) as B.
  nia.
Qed.

(** C5, as the code has it. The numbers of the list route are doubles. For
    a page number [p >= 1] and a page size [s >= 1] as [parseInt] reads
    them, with [s], [(p-1)*s] and the number of selected records at most
    [max_safe], the list route sorts the records its filter selects by
    [createdAt], most recent first, skips [(p-1)*s] of them and answers with
    the next [s] at most, and with the block [currentPage = p],
    [totalPages = ceil(total/s)], [totalItems = total] (the number of
    selected records) and [itemsPerPage = s]; it leaves the collection as it
    is. With 12 selected records, [p = 2] and [s = 5]: 5 records and
    [totalPages = 3]. *)
Theorem list_pagination (q : ListQuery) (st sel : Collection) (p s : Z) :
  pageNum q = Fin p ->
  limitNum q = Fin s ->
  1 <= p ->
  1 <= s <= max_safe ->
  (p - 1) * s <= max_safe ->
  Z.of_nat (List.length sel) <= max_safe ->
  select (query q) st = Some sel ->
  let sorted := sort_desc sel in
  let data := firstn (Z.to_nat s) (skipn (Z.to_nat ((p - 1) * s)) sorted) in
  let total := Z.of_nat (List.length sel) in
  let totalPages := - (- total / s) in
  get_list q st =
    ({| status := 200;
        body := JObj [("success", JBool true);
                      ("data", JArr (map doc_json data));
                      ("pagination",
                       JObj [("currentPage", JNum p);
                             ("totalPages", JNum totalPages);
                             ("totalItems", JNum total);
                             ("itemsPerPage", JNum s)])] |},
     st, [Find; CountDocuments]) /\
  Permutation sorted sel /\
  StronglySorted newer_first sorted /\
  StronglySorted newer_first data /\
  (List.length data <= Z.to_nat s)%nat /\
  List.length data =
    Nat.min (Z.to_nat s) (List.length sel - Z.to_nat ((p - 1) * s)) /\
  (totalPages - 1) * s < total <= totalPages * s /\
  (total = 12 -> p = 2 -> s = 5 -> List.length data = 5%nat /\ totalPages = 3).
Proof.
  intros Hp Hl Hp1 Hs Hb Ht Hsel sorted data total totalPages.
  assert (Hs1 : 1 <= s) by lia.
  assert (Hlen : List.length data =
                 Nat.min (Z.to_nat s)
                   (List.length sel - Z.to_nat ((p - 1) * s))).
  { unfold data. rewrite length_firstn, length_skipn. unfold sorted.
    now rewrite (Permutation_length (sort_desc_perm sel)). }
  repeat split.
  - unfold get_list, try_catch, bind, find, countDocuments, call, ret.
    rewrite Hsel, (page_of_safe q sel p s Hp Hl Hp1 Hs Hb), Hsel.
    unfold page_body. rewrite Hp, Hl.
    rewrite ceil_div_safe by (fold total; lia).
    rewrite to_double_exact by (fold total; unfold max_safe in *; lia).
    reflexivity.
  - apply sort_desc_perm.
  - apply sort_desc_sorted.
  - apply firstn_sorted, skipn_sorted, sort_desc_sorted.
  - rewrite Hlen. apply Nat.le_min_l.
  - exact Hlen.
  - apply ceil_div_bounds; assumption.
  - apply ceil_div_bounds; assumption.
  - rewrite Hlen. subst p s. lia.
  - unfold totalPages. subst s. rewrite H. reflexivity.
Qed.

Lemma contains_ci_search (needle hay : string) :
  contains_ci needle hay <-> find_match (lits_i needle) hay = true.
Proof.
  rewrite find_match_spec. unfold contains_ci.
  split; intros (pre & mid & post & E & H); exists pre, mid, post;
    (split; [exact E | now apply lits_i_matches]).
Qed.

Lemma filter_all (st : Collection) : filter (fun _ => true) st = st.
Proof. induction st as [|d st IH]; simpl; [reflexivity | now rewrite IH]. Qed.

(** C4, as the code has it. With a [search] made of plain characters only
    (printable ASCII, none of the metacharacters of regular expressions), the
    list route answers with the page of exactly the records whose link or
    owner name contains [search] whatever the case of the letters; with no
    [search], or an empty one, with the page of all the records. *)
Theorem list_search (q : ListQuery) (st : Collection) :
  search_is_plain q = true ->
  exists p : Doc -> bool,
    (forall d, p d = true <-> wanted (search q) d) /\
    response_of (get_list q) st = page_of q (filter p st).
Proof.
  unfold search_is_plain, wanted. intros Hplain. rewrite get_list_eq.
  unfold query.
  destruct (search q) as [s|].
  - destruct (s =? EmptyString)%string eqn:E.
    + apply String.eqb_eq in E. subst s.
      exists (fun _ => true). split; [|cbn [select]; now rewrite filter_all].
      intros d. split; [|reflexivity]. intros _. left.
      now exists EmptyString, EmptyString, (telegram_link d).
    + exists (fun d => find_match (lits_i s) (telegram_link d)
                       || find_match (lits_i s) (owner_name d)).
      split.
      * intros d. now rewrite orb_true_iff, !contains_ci_search.
      * unfold select, regex_i. now rewrite (fragment_plain s Hplain).
  - exists (fun _ => true). split; [tauto|].
    cbn [select]. now rewrite filter_all.
Qed.

(** *** The validation rules *)

Lemma link_valid_iff (v : string) :
  validate_telegram_link v = None <-> telegram_link_validator v = true.
Proof.
  unfold validate_telegram_link.
  destruct v as [|c v]; [split; discriminate|].
  cbn [String.length Nat.eqb].
  destruct (telegram_link_validator (String c v)); simpl;
    split; congruence.
Qed.

Lemma owner_valid_iff (v : string) :
  validate_owner_name (trim v) = None <-> spec_owner_ok v = true.
Proof.
  unfold validate_owner_name, spec_owner_ok.
  rewrite andb_true_iff, Nat.leb_le, Nat.leb_le.
  destruct (Nat.eqb_spec (String.length (trim v)) 0);
    [split; [discriminate | lia]|].
  destruct (Nat.ltb_spec (String.length (trim v)) 2);
    [split; [discriminate | lia]|].
  destruct (Nat.ltb_spec 100 (String.length (trim v)));
    [split; [discriminate | lia]|].
  split; [lia | reflexivity].
Qed.

Lemma validate_nil_iff (link owner : string) :
  validate (trim link) (trim owner) = [] <->
  telegram_link_validator (trim link) && spec_owner_ok owner = true.
Proof.
  rewrite andb_true_iff, <- link_valid_iff, <- owner_valid_iff.
  unfold validate.
  destruct (validate_telegram_link (trim link));
    destruct (validate_owner_name (trim owner)); simpl;
    split; try discriminate; try tauto; intros [? ?]; discriminate.
Qed.

Lemma invalid_empty_link : telegram_link_validator (trim EmptyString) = false.
Proof. reflexivity. Qed.

Lemma invalid_empty_owner : spec_owner_ok EmptyString = false.
Proof. reflexivity. Qed.

Lemma truthy_str (v : string) :
  truthy (Str v) = false -> v = EmptyString.
Proof.
  simpl. intros H. apply negb_false_iff in H. now apply String.eqb_eq.
Qed.

(** A creation whose link is not stored, with a fresh identifier: it succeeds
    when both values pass, and is answered 400 otherwise. *)
Lemma post_outcome (env : Env) (b : Body) (link owner : string)
  (st : Collection) :
  req_telegram_link b = Str link ->
  req_owner_name b = Str owner ->
  link_stored (trim link) st = false ->
  id_stored (new_id env) st = false ->
  (telegram_link_validator (trim link) && spec_owner_ok owner = true /\
   post env b st = (created (new_doc env link owner),
                    st ++ [new_doc env link owner], [FindOne; Save])) \/
  (telegram_link_validator (trim link) && spec_owner_ok owner = false /\
   status (response_of (post env b) st) = 400 /\
   store_after (post env b) st = st).
Proof.
  intros Hl Ho Hs Hi. unfold response_of, store_after.
  rewrite post_eq, Hl, Ho. cbn [asString]. rewrite Hs, Hi.
  destruct (truthy (Str link)) eqn:Tl.
  2:{ apply truthy_str in Tl. subst link. right.
      rewrite invalid_empty_link. repeat split. }
  destruct (truthy (Str owner)) eqn:To.
  2:{ apply truthy_str in To. subst owner. right.
      rewrite invalid_empty_owner, andb_false_r. repeat split. }
  cbn [negb orb].
  destruct (validate (trim link) (trim owner)) as [|e errs] eqn:Hv.
  - left. split; [now apply validate_nil_iff | reflexivity].
  - right. split; [|now split].
    destruct (_ && _) eqn:E; [|reflexivity].
    apply validate_nil_iff in E. congruence.
Qed.

(** An update of a stored record with a link no other record stores. *)
Lemma put_outcome (env : Env) (id : string) (oid : ObjectId) (b : Body)
  (link owner : string) (st : Collection) :
  req_telegram_link b = Str link ->
  req_owner_name b = Str owner ->
  castObjectId id = Some oid ->
  id_stored oid st = true ->
  link_stored_elsewhere (trim link) oid st = false ->
  (telegram_link_validator (trim link) && spec_owner_ok owner = true /\
   status (response_of (put env id b) st) = 200 /\
   store_after (put env id b) st =
   update_first oid (set_fields env (trim link) (trim owner)) st) \/
  (telegram_link_validator (trim link) && spec_owner_ok owner = false /\
   status (response_of (put env id b) st) = 400 /\
   store_after (put env id b) st = st).
Proof.
  intros Hl Ho Hc Hi Hs. unfold response_of, store_after.
  rewrite put_eq, Hl, Ho, Hc. cbn [asString]. rewrite Hs.
  destruct (truthy (Str link)) eqn:Tl.
  2:{ apply truthy_str in Tl. subst link. right.
      rewrite invalid_empty_link. repeat split. }
  destruct (truthy (Str owner)) eqn:To.
  2:{ apply truthy_str in To. subst owner. right.
      rewrite invalid_empty_owner, andb_false_r. repeat split. }
  cbn [negb orb].
  destruct (validate_update (trim link) (trim owner)) as [|e errs] eqn:Hv.
  - left. split; [now apply validate_nil_iff, validate_update_nil|].
    unfold id_stored in Hi. rewrite <- find_existsb in Hi.
    destruct (List.find (has_id oid) st); [now split | discriminate].
  - right. split; [|now split].
    destruct (_ && _) eqn:E; [|reflexivity].
    apply validate_nil_iff, validate_update_nil in E. congruence.
Qed.

Lemma spec_owner_ok_truthy (owner : string) :
  spec_owner_ok owner = true -> truthy (Str owner) = true.
Proof.
  destruct owner; [discriminate | reflexivity].
Qed.

Lemma valid_link_truthy (link : string) :
  telegram_link_validator (trim link) = true -> truthy (Str link) = true.
Proof.
  destruct link; [discriminate | reflexivity].
Qed.

Lemma length_truthy (owner : string) (n : nat) :
  String.length (trim owner) = S n -> truthy (Str owner) = true.
Proof.
  destruct owner; [discriminate | reflexivity].
Qed.

(** C7. With a valid link in the body, [POST /] and [PUT /:id] accept an
    [owner_name] exactly when its trimmed length is between 2 and 100: a
    creation whose link is new succeeds (201) if and only if it is, an update
    of a stored record whose link no other record has succeeds (200) if and
    only if it is, and both are answered 400 and change nothing otherwise.
    A creation with a trimmed length of 1 is answered with the validation
    error of the minimum length; with a trimmed length of 2 it succeeds. *)
Theorem owner_name_rule (env : Env) (b : Body) (link owner : string) :
  req_telegram_link b = Str link ->
  req_owner_name b = Str owner ->
  telegram_link_validator (trim link) = true ->
  (forall st,
      link_stored (trim link) st = false ->
      id_stored (new_id env) st = false ->
      (status (response_of (post env b) st) = 201 <->
       spec_owner_ok owner = true) /\
      (spec_owner_ok owner = false ->
       status (response_of (post env b) st) = 400 /\
       store_after (post env b) st = st)) /\
  (forall st id oid,
      castObjectId id = Some oid ->
      id_stored oid st = true ->
      link_stored_elsewhere (trim link) oid st = false ->
      (status (response_of (put env id b) st) = 200 <->
       spec_owner_ok owner = true) /\
      (spec_owner_ok owner = false ->
       status (response_of (put env id b) st) = 400 /\
       store_after (put env id b) st = st)) /\
  (forall st,
      link_stored (trim link) st = false ->
      String.length (trim owner) = 1%nat ->
      response_of (post env b) st =
      validation_failed
        [("owner_name", "Owner name must be at least 2 characters long")]) /\
  (forall st,
      link_stored (trim link) st = false ->
      id_stored (new_id env) st = false ->
      String.length (trim owner) = 2%nat ->
      post env b st = (created (new_doc env link owner),
                       st ++ [new_doc env link owner], [FindOne; Save])).
Proof.
  intros Hl Ho Hv. repeat apply conj.
  - intros st Hs Hi.
    destruct (post_outcome env b link owner st Hl Ho Hs Hi)
      as [[E H] | [E [H1 H2]]]; rewrite Hv in E; simpl in E; rewrite E.
    + unfold response_of. rewrite H. split; [tauto | discriminate].
    + rewrite H1. split; [split; discriminate | auto].
  - intros st id oid Hc Hi Hs.
    destruct (put_outcome env id oid b link owner st Hl Ho Hc Hi Hs)
      as [[E [H1 H2]] | [E [H1 H2]]]; rewrite Hv in E; simpl in E;
      rewrite E, H1.
    + split; [tauto | discriminate].
    + split; [split; discriminate | auto].
  - intros st Hs Hlen. unfold response_of.
    rewrite post_eq, Hl, Ho. cbn [asString].
    rewrite (valid_link_truthy link Hv), (length_truthy owner 0 Hlen), Hs.
    cbn [negb orb]. unfold validate.
    rewrite (proj2 (link_valid_iff (trim link)) Hv).
    unfold validate_owner_name. rewrite Hlen. reflexivity.
  - intros st Hs Hi Hlen.
    destruct (post_outcome env b link owner st Hl Ho Hs Hi)
      as [[E H] | [E _]]; [exact H|].
    rewrite Hv in E. unfold spec_owner_ok in E. rewrite Hlen in E.
    discriminate E.
Qed.

(** C6, as the code has it. With a valid owner name in the body, [POST /]
    and [PUT /:id] accept a [telegram_link] exactly when its trimmed value
    matches [^https?://(t\.me|telegram\.me)/.+]: a creation whose trimmed
    link is new succeeds (201) if and only if it does, an update of a stored
    record whose trimmed link no other record has succeeds (200) if and only
    if it does, and both are answered 400 and change nothing otherwise. A
    creation with [https://t.me/abc] succeeds; with [ftp://t.me/abc] it is
    answered with the validation error of the link. *)
Theorem telegram_link_rule (env : Env) (b : Body) (link owner : string) :
  req_telegram_link b = Str link ->
  req_owner_name b = Str owner ->
  spec_owner_ok owner = true ->
  (forall st,
      link_stored (trim link) st = false ->
      id_stored (new_id env) st = false ->
      (status (response_of (post env b) st) = 201 <->
       telegram_link_validator (trim link) = true) /\
      (telegram_link_validator (trim link) = false ->
       status (response_of (post env b) st) = 400 /\
       store_after (post env b) st = st)) /\
  (forall st id oid,
      castObjectId id = Some oid ->
      id_stored oid st = true ->
      link_stored_elsewhere (trim link) oid st = false ->
      (status (response_of (put env id b) st) = 200 <->
       telegram_link_validator (trim link) = true) /\
      (telegram_link_validator (trim link) = false ->
       status (response_of (put env id b) st) = 400 /\
       store_after (put env id b) st = st)) /\
  (forall st,
      link = "https://t.me/abc" ->
      link_stored (trim link) st = false ->
      id_stored (new_id env) st = false ->
      post env b st = (created (new_doc env link owner),
                       st ++ [new_doc env link owner], [FindOne; Save])) /\
  (forall st,
      link = "ftp://t.me/abc" ->
      link_stored (trim link) st = false ->
      response_of (post env b) st =
      validation_failed
        [("telegram_link", "Please provide a valid Telegram link")]).
Proof.
  intros Hl Ho Hv. repeat apply conj.
  - intros st Hs Hi.
    destruct (post_outcome env b link owner st Hl Ho Hs Hi)
      as [[E H] | [E [H1 H2]]]; rewrite Hv, andb_true_r in E; rewrite E.
    + unfold response_of. rewrite H. split; [tauto | discriminate].
    + rewrite H1. split; [split; discriminate | auto].
  - intros st id oid Hc Hi Hs.
    destruct (put_outcome env id oid b link owner st Hl Ho Hc Hi Hs)
      as [[E [H1 H2]] | [E [H1 H2]]]; rewrite Hv, andb_true_r in E;
      rewrite E, H1.
    + split; [tauto | discriminate].
    + split; [split; discriminate | auto].
  - intros st -> Hs Hi.
    destruct (post_outcome env b _ owner st Hl Ho Hs Hi)
      as [[E H] | [E _]]; [exact H|].
    rewrite Hv in E. discriminate E.
  - intros st -> Hs. unfold response_of.
    rewrite post_eq, Hl, Ho. cbn [asString].
    rewrite (spec_owner_ok_truthy owner Hv), Hs.
    cbn [negb orb truthy String.eqb]. unfold validate.
    rewrite (proj2 (owner_valid_iff owner) Hv). reflexivity.
Qed.

End Service.

(** ** The properties on sample data *)

Import Sample.

Lemma missing_field_rejected_witness :
  truthy (req_owner_name
            {| req_telegram_link := Str "https://t.me/abc";
               req_owner_name := Str EmptyString |}) = false /\
  post env1 {| req_telegram_link := Str "https://t.me/abc";
               req_owner_name := Str EmptyString |} store_abc
  = (missing_fields, store_abc, []).
Proof.
  split; [reflexivity|].
  apply (missing_field_rejected (drv := hex24) env1 "aaaaaaaaaaaaaaaaaaaaaaaa").
  right. reflexivity.
Defined.

Lemma duplicate_create_rejected_witness :
  In doc_abc (serve (drv := hex24) session_abc []) /\
  post env1 {| req_telegram_link := Str "https://t.me/abc";
               req_owner_name := Str "Al" |}
       (serve (drv := hex24) session_abc [])
  = (duplicate_link, serve (drv := hex24) session_abc [], [FindOne]).
Proof.
  split; [left; reflexivity|].
  apply (duplicate_create_rejected (drv := hex24) env1 session_abc doc_abc
           (Str "Al")).
  - left. reflexivity.
  - reflexivity.
Defined.

(** C3 as stated fails: the link is stored, the creation carries it, and the
    answer is 400, not 409, because [owner_name] is empty. *)
Lemma duplicate_create_empty_owner :
  In "https://t.me/abc" (map telegram_link store_abc) /\
  post env1 {| req_telegram_link := Str "https://t.me/abc";
               req_owner_name := Str EmptyString |} store_abc
  = (missing_fields, store_abc, []) /\
  status missing_fields <> 409.
Proof.
  split; [left; reflexivity|]. split; [reflexivity | discriminate].
Qed.

Lemma update_absent_id_witness :
  castObjectId (Driver := hex24) "bbbbbbbbbbbbbbbbbbbbbbbb"
  = Some "bbbbbbbbbbbbbbbbbbbbbbbb" /\
  id_stored "bbbbbbbbbbbbbbbbbbbbbbbb" store_abc = false /\
  put (drv := hex24) env1 "bbbbbbbbbbbbbbbbbbbbbbbb"
      {| req_telegram_link := Str "https://t.me/xyz";
         req_owner_name := Str "Al" |} store_abc
  = (not_found, store_abc, [FindOne; FindByIdAndUpdate]).
Proof.
  split; [reflexivity|]. split; [reflexivity|].
  apply (update_absent_id (drv := hex24) env1 "bbbbbbbbbbbbbbbbbbbbbbbb"
           "bbbbbbbbbbbbbbbbbbbbbbbb"
           {| req_telegram_link := Str "https://t.me/xyz";
              req_owner_name := Str "Al" |} store_abc);
    reflexivity.
Defined.

(** C1 as stated fails: no record has the identifier, both fields are
    present, and the answer is 409, not 404, because another record stores
    the link. *)
Lemma update_absent_id_duplicate :
  id_stored "bbbbbbbbbbbbbbbbbbbbbbbb" store_abc = false /\
  put (drv := hex24) env1 "bbbbbbbbbbbbbbbbbbbbbbbb" body_abc store_abc
  = (duplicate_link, store_abc, [FindOne]) /\
  status duplicate_link <> 404.
Proof.
  split; [reflexivity|]. split; [reflexivity | discriminate].
Qed.

Lemma list_search_witness :
  search_is_plain (search_for "BOB") = true /\
  exists p : Doc -> bool,
    (forall d, p d = true <-> wanted (Some "BOB") d) /\
    response_of (get_list (drv := hex24) (search_for "BOB")) store_abc
    = page_of (drv := hex24) (search_for "BOB") (filter p store_abc).
Proof.
  split; [reflexivity|].
  apply (list_search (drv := hex24) (search_for "BOB") store_abc).
  reflexivity.
Defined.

(** C4 as stated fails: [search=a.c] is a regular expression for the
    server, so the record with the link [https://t.me/abc] is returned
    although neither of its fields contains [a.c]. *)
Lemma list_search_dot :
  response_of (get_list (drv := hex24) (search_for "a.c")) store_abc
  = {| status := 200; body := page_body [doc_abc] (Fin 1) (Fin 10) 1 |} /\
  ~ contains_ci "a.c" (telegram_link doc_abc) /\
  ~ contains_ci "a.c" (owner_name doc_abc).
Proof.
  split; [reflexivity|].
  split; rewrite contains_ci_search; discriminate.
Qed.

Lemma list_pagination_witness :
  pageNum page2_of5 = Fin 2 /\
  limitNum page2_of5 = Fin 5 /\
  select (drv := hex24) (query page2_of5) twelve = Some twelve /\
  List.length twelve = 12%nat /\
  get_list (drv := hex24) page2_of5 twelve =
    ({| status := 200;
        body := JObj [("success", JBool true);
                      ("data",
                       JArr (map doc_json
                               (firstn 5 (skipn 5 (sort_desc twelve)))));
                      ("pagination",
                       JObj [("currentPage", JNum 2);
                             ("totalPages", JNum 3);
                             ("totalItems", JNum 12);
                             ("itemsPerPage", JNum 5)])] |},
     twelve, [Find; CountDocuments]) /\
  List.length (firstn 5 (skipn 5 (sort_desc twelve))) = 5%nat.
Proof.
  do 4 (split; [reflexivity|]).
  destruct (list_pagination (drv := hex24) page2_of5 twelve twelve 2 5
              eq_refl eq_refl ltac:(lia)
              ltac:(vm_compute; split; discriminate)
              ltac:(vm_compute; discriminate)
              ltac:(vm_compute; discriminate) eq_refl)
    as (H & _ & _ & _ & _ & _ & _ & Hex).
  split; [exact H|].
  exact (proj1 (Hex eq_refl eq_refl eq_refl)).
Defined.

(** C5 as stated fails: the page number 9007199254740993 is read as the
    double 9007199254740992, and that is the [currentPage] of the answer. *)
Lemma list_pagination_rounds :
  read_digits 10 "9007199254740993" None = Some 9007199254740993 /\
  response_of (get_list (drv := hex24) page_unsafe) twelve =
  {| status := 200;
     body := JObj [("success", JBool true);
                   ("data", JArr []);
                   ("pagination",
                    JObj [("currentPage", JNum 9007199254740992);
                          ("totalPages", JNum 12);
                          ("totalItems", JNum 12);
                          ("itemsPerPage", JNum 1)])] |} /\
  9007199254740992 <> 9007199254740993.
Proof.
  split; [reflexivity|]. split; [|discriminate].
  rewrite get_list_eq.
  change (select (query page_unsafe) twelve) with (Some twelve).
  unfold page_of.
  rewrite (window_past_end (drv := hex24) page_unsafe twelve
             9007199254740992 1 eq_refl eq_refl);
    [reflexivity | | | |]; vm_compute; try split; discriminate.
Qed.

Lemma telegram_link_rule_witness :
  spec_owner_ok "Bob" = true /\
  post env0 body_abc [] = (created doc_abc, [doc_abc], [FindOne; Save]) /\
  status (response_of
            (put (drv := hex24) env1 "aaaaaaaaaaaaaaaaaaaaaaaa"
               {| req_telegram_link := Str "ftp://t.me/abc";
                  req_owner_name := Str "Bob" |}) store_abc) = 400.
Proof.
  split; [reflexivity|]. split.
  - exact (proj1 (proj2 (proj2
      (telegram_link_rule (drv := hex24) env0 body_abc "https://t.me/abc"
         "Bob" eq_refl eq_refl eq_refl))) [] eq_refl eq_refl eq_refl).
  - exact (proj1 (proj2 (proj1 (proj2
      (telegram_link_rule (drv := hex24) env1
         {| req_telegram_link := Str "ftp://t.me/abc";
            req_owner_name := Str "Bob" |} "ftp://t.me/abc"
         "Bob" eq_refl eq_refl eq_refl)) store_abc
      "aaaaaaaaaaaaaaaaaaaaaaaa" "aaaaaaaaaaaaaaaaaaaaaaaa"
      eq_refl eq_refl eq_refl) eq_refl)).
Defined.

(** C6 as stated fails in both directions, because the schema trims the
    value before it validates it: a link with a leading space does not match
    the pattern and is accepted (and stored trimmed), and a link whose path
    is a single space matches the pattern and is rejected. *)
Lemma telegram_link_untrimmed :
  spec_link_ok " https://t.me/abc" = false /\
  post env0 {| req_telegram_link := Str " https://t.me/abc";
               req_owner_name := Str "Bob" |} []
  = (created doc_abc, [doc_abc], [FindOne; Save]) /\
  status (created doc_abc) = 201 /\
  spec_link_ok "https://t.me/ " = true /\
  response_of (post env0 {| req_telegram_link := Str "https://t.me/ ";
                            req_owner_name := Str "Bob" |}) []
  = validation_failed
      [("telegram_link", "Please provide a valid Telegram link")].
Proof.
  repeat split.
Qed.

Lemma owner_name_rule_witness :
  telegram_link_validator (trim "https://t.me/abc") = true /\
  status (response_of
            (post env0 {| req_telegram_link := Str "https://t.me/abc";
                          req_owner_name := Str "Al" |}) []) = 201 /\
  response_of (post env0 {| req_telegram_link := Str "https://t.me/abc";
                            req_owner_name := Str " A " |}) []
  = validation_failed
      [("owner_name", "Owner name must be at least 2 characters long")].
Proof.
  split; [reflexivity|]. split.
  - apply (proj1 (proj1
      (owner_name_rule (drv := hex24) env0
         {| req_telegram_link := Str "https://t.me/abc";
            req_owner_name := Str "Al" |} "https://t.me/abc" "Al"
         eq_refl eq_refl eq_refl) [] eq_refl eq_refl)).
    reflexivity.
  - exact (proj1 (proj2 (proj2
      (owner_name_rule (drv := hex24) env0
         {| req_telegram_link := Str "https://t.me/abc";
            req_owner_name := Str " A " |} "https://t.me/abc" " A "
         eq_refl eq_refl eq_refl))) [] eq_refl eq_refl).
Defined.

(** * Further properties of the routes *)

Section Routes_more.
Context {drv : Driver}.

(** ** Reading back what was written *)

Lemma find_app_new (oid : ObjectId) (d : Doc) (st : Collection) :
  id_stored oid st = false ->
  has_id oid d = true ->
  List.find (has_id oid) (st ++ [d]) = Some d.
Proof.
  unfold id_stored. induction st as [|x st IH]; simpl; intros Hs Hd.
  - now rewrite Hd.
  - apply orb_false_iff in Hs as [Hx Hs]. rewrite Hx. auto.
Qed.

Lemma get_by_id_eq (id : string) (st : Collection) :
  get_by_id id st =
  match castObjectId id with
  | Some oid =>
      match List.find (has_id oid) st with
      | Some d => (found d, st, [FindById])
      | None => (not_found, st, [FindById])
      end
  | None => (failure 500 "Failed to fetch telegram link", st, [FindById])
  end.
Proof.
  unfold get_by_id, try_catch, bind, findById, call, ret.
  destruct (castObjectId id) as [oid|]; [|reflexivity].
  destruct (List.find (has_id oid) st); reflexivity.
Qed.

(** X1. A creation answered 201 appends one record, made of the trimmed
    values, the identifier and the time of the request; [GET /:id] with that
    identifier then answers 200 with this very record. *)
Theorem create_then_get (env : Env) (b : Body) (st : Collection) (id : string) :
  status (response_of (post env b) st) = 201 ->
  castObjectId id = Some (new_id env) ->
  let d := {| _id := new_id env;
              telegram_link := trim (asString (req_telegram_link b));
              owner_name := trim (asString (req_owner_name b));
              createdAt := now env;
              updatedAt := now env |} in
  post env b st = (created d, st ++ [d], [FindOne; Save]) /\
  get_by_id id (st ++ [d]) = (found d, st ++ [d], [FindById]).
Proof.
  intros H Hc d. unfold response_of in H. rewrite post_eq in *.
  destruct (negb _ || negb _); [discriminate H|].
  destruct (link_stored _ st); [discriminate H|].
  destruct (validate _ _); [|discriminate H].
  destruct (id_stored _ st) eqn:Hi; [discriminate H|].
  split; [reflexivity|].
  rewrite get_by_id_eq, Hc.
  change (new_doc env (asString (req_telegram_link b))
            (asString (req_owner_name b))) with d.
  rewrite (find_app_new (new_id env) d st Hi); [reflexivity|].
  apply String.eqb_refl.
Qed.

Lemma unique_ids_after (oid : ObjectId) (l1 l2 : list Doc) (d : Doc) :
  unique_ids (l1 ++ d :: l2) ->
  has_id oid d = true ->
  forall x, In x l2 -> has_id oid x = false.
Proof.
  unfold unique_ids, has_id. rewrite map_app. simpl.
  intros Hn Hd x Hx. apply NoDup_remove_2 in Hn.
  apply String.eqb_eq in Hd.
  destruct (_id x =? oid)%string eqn:E; [|reflexivity].
  apply String.eqb_eq in E. exfalso. apply Hn.
  apply in_or_app. right. rewrite Hd, <- E. now apply in_map.
Qed.

Lemma find_none_app (f : Doc -> bool) (l1 l2 : list Doc) :
  (forall x, In x l1 -> f x = false) ->
  (forall x, In x l2 -> f x = false) ->
  List.find f (l1 ++ l2) = None.
Proof.
  intros H1 H2.
  destruct (List.find f (l1 ++ l2)) as [x|] eqn:E; [|reflexivity].
  apply find_some in E as [Hin Hf].
  apply in_app_or in Hin as [Hin | Hin];
    [rewrite (H1 x Hin) in Hf | rewrite (H2 x Hin) in Hf]; discriminate.
Qed.

(** X2. In a collection whose identifiers are unique, once [DELETE /:id] has
    answered 200 the record is gone: the collection has one record less, and
    [GET /:id] and a second [DELETE /:id] both answer 404. *)
Theorem delete_then_get (id : string) (st : Collection) :
  unique_ids st ->
  status (response_of (delete id) st) = 200 ->
  let st' := store_after (delete id) st in
  List.length st = S (List.length st') /\
  get_by_id id st' = (not_found, st', [FindById]) /\
  delete id st' = (not_found, st', [FindByIdAndDelete]).
Proof.
  intros Hu H st'. unfold st', response_of, store_after in *.
  rewrite delete_eq in *.
  destruct (castObjectId id) as [oid|] eqn:Hc; [|discriminate H].
  destruct (remove_first_split oid st)
    as [[Hf Hr] | (l1 & d & l2 & E & Hr & Hd & Hf & Hl)];
    rewrite Hf in *; [discriminate H|].
  cbn [fst snd]. rewrite Hr. subst st.
  assert (Hnone : List.find (has_id oid) (l1 ++ l2) = None).
  { apply find_none_app; [exact Hl|]. now apply (unique_ids_after oid l1 l2 d). }
  repeat split.
  - rewrite !length_app. simpl. lia.
  - now rewrite get_by_id_eq, Hc, Hnone.
  - rewrite delete_eq, Hc, Hnone.
    destruct (remove_first_split oid (l1 ++ l2))
      as [[_ Hr'] | (? & ? & ? & _ & _ & _ & Hf' & _)];
      [now rewrite Hr' | congruence].
Qed.

Lemma find_update_first_same (oid : ObjectId) (f : Doc -> Doc) (d : Doc)
  (st : Collection) :
  (forall x, _id (f x) = _id x) ->
  List.find (has_id oid) st = Some d ->
  List.find (has_id oid) (update_first oid f st) = Some (f d).
Proof.
  intros Hf. induction st as [|x st IH]; simpl; [discriminate|].
  destruct (has_id oid x) eqn:E; simpl.
  - intros H. injection H as <-. unfold has_id in *. now rewrite Hf, E.
  - rewrite E. exact IH.
Qed.

Lemma find_update_first_other (oid oid2 : ObjectId) (f : Doc -> Doc)
  (st : Collection) :
  (forall x, _id (f x) = _id x) ->
  oid2 <> oid ->
  List.find (has_id oid2) (update_first oid f st)
  = List.find (has_id oid2) st.
Proof.
  intros Hf Hne. induction st as [|x st IH]; simpl; [reflexivity|].
  destruct (has_id oid x) eqn:E; simpl.
  - unfold has_id in *. rewrite Hf. apply String.eqb_eq in E.
    replace (_id x =? oid2)%string with false; [reflexivity|].
    symmetry. apply String.eqb_neq. congruence.
  - now rewrite IH.
Qed.

(** X3. An update answered 200 replaces the two fields of the record with the
    trimmed values and stamps [updatedAt]; the identifier and [createdAt]
    stay. [GET /:id] then answers with the updated record, and [GET] of any
    other identifier answers as it did before the update. *)
Theorem update_then_get
  (env : Env) (id : string) (oid : ObjectId) (b : Body) (st : Collection) :
  castObjectId id = Some oid ->
  status (response_of (put env id b) st) = 200 ->
  exists d,
    List.find (has_id oid) st = Some d /\
    let d' := {| _id := _id d;
                 telegram_link := trim (asString (req_telegram_link b));
                 owner_name := trim (asString (req_owner_name b));
                 createdAt := createdAt d;
                 updatedAt := now env |} in
    let st' := store_after (put env id b) st in
    response_of (put env id b) st = updated d' /\
    get_by_id id st' = (found d', st', [FindById]) /\
    forall id2 oid2,
      castObjectId id2 = Some oid2 -> oid2 <> oid ->
      response_of (get_by_id id2) st' = response_of (get_by_id id2) st.
Proof.
  intros Hc H. unfold response_of, store_after in *. rewrite put_eq in *.
  rewrite Hc in *.
  destruct (negb _ || negb _); [discriminate H|].
  destruct (link_stored_elsewhere _ _ st); [discriminate H|].
  destruct (validate_update _ _); [|discriminate H].
  destruct (List.find (has_id oid) st) as [d|] eqn:Hf; [|discriminate H].
  exists d. split; [reflexivity|]. cbn [fst snd].
  split; [reflexivity|]. split.
  - rewrite get_by_id_eq, Hc.
    erewrite find_update_first_same;
      [reflexivity | intros; reflexivity | exact Hf].
  - intros id2 oid2 Hc2 Hne. rewrite !get_by_id_eq, Hc2.
    erewrite find_update_first_other;
      [destruct (List.find (has_id oid2) st); reflexivity
      | intros; reflexivity | exact Hne].
Qed.

(** ** The link of another record, and one's own *)

Lemma nodup_map_inj {A B : Type} (f : A -> B) (l : list A) (a b : A) :
  NoDup (map f l) -> In a l -> In b l -> f a = f b -> a = b.
Proof.
  induction l as [|x l IH]; simpl; [tauto|].
  intros Hn Ha Hb E. apply NoDup_cons_iff in Hn as [Hx Hn].
  destruct Ha as [-> | Ha], Hb as [-> | Hb]; auto.
  - exfalso. apply Hx. rewrite E. now apply in_map.
  - exfalso. apply Hx. rewrite <- E. now apply in_map.
Qed.

(** X4. In a collection the service built, an update that carries the link
    of a stored record under any other well-formed identifier, with a
    non-empty [owner_name], is answered 409 after the one lookup, and changes
    nothing. *)
Theorem update_link_conflict
  (env : Env) (reqs : list (Env * Request)) (d : Doc) (id : string)
  (oid : ObjectId) (owner : value) :
  In d (serve reqs []) ->
  castObjectId id = Some oid ->
  oid <> _id d ->
  truthy owner = true ->
  put env id {| req_telegram_link := Str (telegram_link d);
                req_owner_name := owner |} (serve reqs [])
  = (duplicate_link, serve reqs [], [FindOne]).
Proof.
  intros Hin Hc Hne Ho.
  destruct (serve_well_formed reqs [] empty_well_formed) as [_ Hs].
  rewrite Forall_forall in Hs.
  destruct (schema_ok_link d (Hs d Hin)) as [Ht Hl].
  rewrite put_eq. cbn [req_telegram_link req_owner_name asString].
  rewrite Hl, Ho, Hc, Ht. cbn [negb orb].
  replace (link_stored_elsewhere (telegram_link d) oid (serve reqs []))
    with true; [reflexivity|].
  symmetry. apply existsb_exists. exists d. split; [assumption|].
  rewrite String.eqb_refl. simpl. apply negb_true_iff.
  apply String.eqb_neq. congruence.
Qed.

(** X5. In a collection the service built, an update may keep the link of
    the record it updates: with that link and a valid owner name it is
    answered 200, and only the owner name and [updatedAt] of the record
    change. *)
Theorem update_own_link
  (env : Env) (reqs : list (Env * Request)) (d : Doc) (id : string)
  (owner : string) :
  In d (serve reqs []) ->
  castObjectId id = Some (_id d) ->
  spec_owner_ok owner = true ->
  response_of
    (put env id {| req_telegram_link := Str (telegram_link d);
                   req_owner_name := Str owner |}) (serve reqs [])
  = updated {| _id := _id d;
               telegram_link := telegram_link d;
               owner_name := trim owner;
               createdAt := createdAt d;
               updatedAt := now env |}.
Proof.
  intros Hin Hc Ho.
  destruct (serve_well_formed reqs [] empty_well_formed) as [[Hi Hu] Hs].
  rewrite Forall_forall in Hs.
  pose proof (Hs d Hin) as Hd.
  destruct (schema_ok_link d Hd) as [Ht Hl].
  destruct Hd as (_ & _ & Hv).
  assert (Hlv : telegram_link_validator (trim (telegram_link d)) = true).
  { rewrite Ht. apply link_valid_iff. unfold validate in Hv.
    destruct (validate_telegram_link (telegram_link d));
      [discriminate Hv | reflexivity]. }
  assert (He : link_stored_elsewhere (telegram_link d) (_id d) (serve reqs [])
               = false).
  { unfold link_stored_elsewhere.
    destruct (existsb _ _) eqn:E; [|reflexivity].
    apply existsb_exists in E as (x & Hx & E).
    apply andb_true_iff in E as [E1 E2]. apply String.eqb_eq in E1.
    rewrite (nodup_map_inj telegram_link _ x d Hu Hx Hin E1) in E2.
    unfold has_id in E2. now rewrite String.eqb_refl in E2. }
  assert (Hf : List.find (has_id (_id d)) (serve reqs []) = Some d).
  { destruct (List.find _ _) as [x|] eqn:E.
    - apply find_some in E as [Hx E]. unfold has_id in E.
      apply String.eqb_eq in E.
      now rewrite (nodup_map_inj _id _ x d Hi Hx Hin E).
    - apply (find_none _ _ E) in Hin. unfold has_id in Hin.
      now rewrite String.eqb_refl in Hin. }
  unfold response_of. rewrite put_eq.
  cbn [req_telegram_link req_owner_name asString].
  rewrite Hl, (spec_owner_ok_truthy owner Ho), Hc, Ht, He. cbn [negb orb].
  rewrite <- Ht at 1.
  rewrite (proj2 (validate_update_nil (trim (telegram_link d)) (trim owner)));
    [|apply validate_nil_iff; now rewrite Hlv, Ho].
  now rewrite Hf.
Qed.

(** ** Identifiers that are not well formed *)

(** X6. With an identifier that cannot be cast to an [ObjectId], [GET /:id],
    [DELETE /:id] and [PUT /:id] (once both fields are present) answer 500
    after the first model call, and the collection is unchanged. *)
Theorem malformed_id (env : Env) (id : string) (b : Body) (st : Collection) :
  castObjectId id = None ->
  get_by_id id st
  = (failure 500 "Failed to fetch telegram link", st, [FindById]) /\
  delete id st
  = (failure 500 "Failed to delete telegram link", st, [FindByIdAndDelete]) /\
  (truthy (req_telegram_link b) = true ->
   truthy (req_owner_name b) = true ->
   put env id b st
   = (failure 500 "Failed to update telegram link", st, [FindOne])).
Proof.
  intros Hc. rewrite get_by_id_eq, delete_eq, put_eq, Hc.
  repeat split. intros -> ->. reflexivity.
Qed.

(** ** Failures and status codes *)

Lemma remove_first_absent (oid : ObjectId) (st : Collection) :
  List.find (has_id oid) st = None -> remove_first oid st = st.
Proof.
  intros H.
  destruct (remove_first_split oid st)
    as [[_ Hr] | (? & ? & ? & _ & _ & _ & Hf & _)]; [exact Hr | congruence].
Qed.

(** X7. A request changes the collection only when it is answered 200 or
    201 by a write route: the three [GET] routes never change it, and no
    route changes it when it answers 400, 404, 409 or 500. *)
Theorem failure_keeps_store (env : Env) (rq : Request) (st : Collection) :
  is_read rq = true \/ 400 <= status (response_of (handle env rq) st) ->
  store_after (handle env rq) st = st.
Proof.
  destruct rq as [q | | id | b | id b | id]; cbn [handle is_read]; intros H.
  - apply (reads_keep_store q EmptyString st).
  - apply (reads_keep_store (Build_ListQuery None None None) EmptyString st).
  - apply (reads_keep_store (Build_ListQuery None None None) id st).
  - destruct H as [H | H]; [discriminate H|].
    unfold response_of, store_after in *. rewrite post_eq in *.
    destruct (negb _ || negb _); [reflexivity|].
    destruct (link_stored _ st); [reflexivity|].
    destruct (validate _ _); [|reflexivity].
    destruct (id_stored _ st); [reflexivity|].
    simpl in H. lia.
  - destruct H as [H | H]; [discriminate H|].
    unfold response_of, store_after in *. rewrite put_eq in *.
    destruct (negb _ || negb _); [reflexivity|].
    destruct (castObjectId id); [|reflexivity].
    destruct (link_stored_elsewhere _ _ st); [reflexivity|].
    destruct (validate_update _ _); [|reflexivity].
    destruct (List.find _ st); [|reflexivity].
    simpl in H. lia.
  - destruct H as [H | H]; [discriminate H|].
    unfold response_of, store_after in *. rewrite delete_eq in *.
    destruct (castObjectId id) as [oid|]; [|reflexivity].
    destruct (List.find _ st) eqn:Hf; [simpl in H; lia|].
    simpl. now apply remove_first_absent.
Qed.

Ltac step_body :=
  match goal with
  | H : context [match ?x with _ => _ end] |- _ => destruct x eqn:?
  | H : (_, _, _) = (_, _, _) |- _ => inversion H; subst; clear H
  end.

Ltac status_goal :=
  split; [simpl; tauto
         | split; [eexists; split; reflexivity
                  | intros E; try discriminate E; eauto]].

(** X8. The status of a response is one of 200, 201, 400, 404, 409 and 500,
    [success] is [true] exactly for 200 and 201, and only [POST /] answers
    201. *)
Theorem status_matches_success (env : Env) (rq : Request) (st : Collection) :
  let r := response_of (handle env rq) st in
  In (status r) [200; 201; 400; 404; 409; 500] /\
  (exists fields,
      body r = JObj fields /\
      lookup "success" fields = Some (JBool (status r <? 400))) /\
  (status r = 201 -> exists b, rq = Post b).
Proof.
  destruct rq as [q | | id | b | id b | id];
    unfold handle, get_list, get_owners, get_by_id, post, put, delete;
    cbv zeta;
    match goal with
    | |- context [response_of (try_catch ?m ?h) st] =>
        pattern (response_of (try_catch m h) st);
        apply try_catch_response
    end;
    try (intros e; destruct e; status_goal);
    intros r st' l H;
    unfold bind, find, countDocuments, distinct_owner_name, findById,
      findOne_link, findOne_link_ne, save, findByIdAndUpdate,
      findByIdAndDelete, call, ret in H;
    repeat step_body; try discriminate; status_goal.
Qed.

(** ** What the collection keeps *)

(** X9. Every record of a collection the service built has a link that
    passes the validator and an owner name of 2 to 100 characters, and both
    are stored trimmed. *)
Theorem stored_records_valid (reqs : list (Env * Request)) (d : Doc) :
  In d (serve reqs []) ->
  telegram_link_validator (telegram_link d) = true /\
  (2 <= String.length (owner_name d) <= 100)%nat /\
  trim (telegram_link d) = telegram_link d /\
  trim (owner_name d) = owner_name d.
Proof.
  intros Hin.
  destruct (serve_well_formed reqs [] empty_well_formed) as [_ Hs].
  rewrite Forall_forall in Hs. destruct (Hs d Hin) as (Ht & Ho & Hv).
  rewrite <- Ht, <- Ho in Hv. apply validate_nil_iff in Hv.
  apply andb_true_iff in Hv as [Hl Hw]. rewrite Ht in Hl.
  unfold spec_owner_ok in Hw. rewrite Ho in Hw.
  apply andb_true_iff in Hw as [H2 H100].
  apply Nat.leb_le in H2, H100. auto.
Qed.

(** X10. After any sequence of requests served from the empty collection, no
    two records have the same identifier: a creation whose identifier is
    taken is refused. *)
Theorem ids_unique (reqs : list (Env * Request)) :
  unique_ids (serve reqs []).
Proof.
  apply (serve_consistent reqs []). split; constructor.
Qed.

(** X11. [PUT /:id] never adds or removes a record and never changes an
    identifier or a creation time: the identities of the records, in order,
    are the same after the call as before, whatever it answers. *)
Theorem put_keeps_identity
  (env : Env) (id : string) (b : Body) (st : Collection) :
  map identity (store_after (put env id b) st) = map identity st.
Proof.
  unfold store_after. rewrite put_eq.
  destruct (negb _ || negb _); [reflexivity|].
  destruct (castObjectId id) as [oid|]; [|reflexivity].
  destruct (link_stored_elsewhere _ _ st); [reflexivity|].
  destruct (validate_update _ _); [|reflexivity].
  destruct (List.find _ st); [|reflexivity].
  cbn [fst snd]. induction st as [|x st IH]; simpl; [reflexivity|].
  destruct (has_id oid x); simpl; [reflexivity | now rewrite IH].
Qed.

Lemma stamped_later (t t' : Z) (st : Collection) :
  t <= t' -> Forall (stamped_by t) st -> Forall (stamped_by t') st.
Proof.
  intros Ht H. eapply Forall_impl; [|exact H].
  unfold stamped_by. intros d Hd. lia.
Qed.

Lemma handle_stamped (env : Env) (rq : Request) (st : Collection) :
  Forall (stamped_by (now env)) st ->
  Forall (stamped_by (now env)) (store_after (handle env rq) st).
Proof.
  intros H. destruct rq as [q | | id | b | id b | id]; cbn [handle].
  - rewrite (proj1 (reads_keep_store q EmptyString st)). exact H.
  - rewrite
      (proj1 (proj2 (reads_keep_store (Build_ListQuery None None None)
                       EmptyString st))). exact H.
  - rewrite
      (proj2 (proj2 (reads_keep_store (Build_ListQuery None None None)
                       id st))). exact H.
  - unfold store_after. rewrite post_eq.
    destruct (negb _ || negb _); [assumption|].
    destruct (link_stored _ st); [assumption|].
    destruct (validate _ _); [|assumption].
    destruct (id_stored _ st); [assumption|].
    simpl. apply Forall_app. split; [assumption|].
    repeat constructor; simpl; lia.
  - unfold store_after. rewrite put_eq.
    destruct (negb _ || negb _); [assumption|].
    destruct (castObjectId id) as [oid|]; [|assumption].
    destruct (link_stored_elsewhere _ _ st); [assumption|].
    destruct (validate_update _ _); [|assumption].
    destruct (List.find _ st); [|assumption].
    cbn [fst snd]. induction H as [|x st Hx Hst IH]; simpl; [constructor|].
    destruct (has_id oid x); constructor; auto.
    unfold stamped_by in *. simpl. lia.
  - unfold store_after. rewrite delete_eq.
    destruct (castObjectId id) as [oid|]; [|assumption].
    destruct (List.find _ st); simpl; now apply remove_first_forall.
Qed.

Lemma serve_stamped (reqs : list (Env * Request)) :
  forall t st,
    clock_from t reqs -> Forall (stamped_by t) st ->
    exists t', Forall (stamped_by t') (serve reqs st).
Proof.
  induction reqs as [|[env rq] reqs IH]; simpl; intros t st Hc H.
  - now exists t.
  - destruct Hc as [Ht Hc]. apply (IH (now env)); [assumption|].
    apply handle_stamped. now apply (stamped_later t).
Qed.

(** X12. When the clock never goes back along a session, every record of
    the collection it leaves has [createdAt <= updatedAt]. *)
Theorem timestamps_ordered (t : Z) (reqs : list (Env * Request)) (d : Doc) :
  clock_from t reqs ->
  In d (serve reqs []) ->
  createdAt d <= updatedAt d.
Proof.
  intros Hc Hin.
  destruct (serve_stamped reqs t [] Hc (Forall_nil _)) as [t' H].
  rewrite Forall_forall in H. now apply (H d Hin).
Qed.

(** ** The owners and the pages *)

(** X13. [GET /owners] answers 200 with the owner names of the records, each
    of them once, and changes nothing. *)
Theorem owners_listed_once (st : Collection) :
  exists owners : list string,
    get_owners st =
      ({| status := 200;
          body := JObj [("success", JBool true);
                        ("data", JArr (map JStr owners))] |},
       st, [Distinct]) /\
    NoDup owners /\
    forall o, In o owners <-> exists d, In d st /\ owner_name d = o.
Proof.
  exists (nodup string_dec (map owner_name st)).
  split; [reflexivity|]. split; [apply NoDup_nodup|].
  intros o. rewrite nodup_In, in_map_iff.
  split; intros (d & H1 & H2); exists d; auto.
Qed.

Lemma fold_insert_newest (d : Doc) (st l : list Doc) :
  (forall x, In x st -> createdAt x < createdAt d) ->
  fold_right insert_desc (d :: l) st = d :: fold_right insert_desc l st.
Proof.
  induction st as [|x st IH]; simpl; intros H; [reflexivity|].
  rewrite IH by auto. simpl.
  replace (createdAt d <=? createdAt x) with false; [reflexivity|].
  symmetry. apply Z.leb_gt. auto.
Qed.

Lemma sort_desc_newest (d : Doc) (st : list Doc) :
  (forall x, In x st -> createdAt x < createdAt d) ->
  sort_desc (st ++ [d]) = d :: sort_desc st.
Proof.
  intros H. unfold sort_desc. rewrite fold_right_app. simpl.
  now apply fold_insert_newest.
Qed.

(** X14. A record created later than all the others is the first of the
    first page of the unfiltered list, for a limit from 1 to [max_safe], and
    is counted in [totalItems]. *)
Theorem newest_first
  (env : Env) (b : Body) (st : Collection) (q : ListQuery) (s : Z) :
  status (response_of (post env b) st) = 201 ->
  (forall x, In x st -> createdAt x < now env) ->
  query q = None ->
  pageNum q = Fin 1 ->
  limitNum q = Fin s ->
  1 <= s <= max_safe ->
  exists rest,
    response_of (get_list q) (store_after (post env b) st) =
    {| status := 200;
       body := page_body
                 (new_doc env (asString (req_telegram_link b))
                    (asString (req_owner_name b)) :: rest)
                 (Fin 1) (Fin s) (Z.of_nat (S (List.length st))) |}.
Proof.
  intros H Hnew Hq Hp Hl Hs. unfold response_of at 1 in H.
  unfold store_after. rewrite post_eq in *.
  destruct (negb _ || negb _); [discriminate H|].
  destruct (link_stored _ st); [discriminate H|].
  destruct (validate _ _); [|discriminate H].
  destruct (id_stored _ st); [discriminate H|].
  cbn [fst snd]. rewrite get_list_eq, Hq. cbn [select].
  unfold page_of.
  rewrite (page_of_safe q _ 1 s Hp Hl ltac:(lia) Hs)
    by (unfold max_safe; lia).
  rewrite Hp, Hl.
  rewrite sort_desc_newest by exact Hnew.
  replace (Z.to_nat ((1 - 1) * s)) with 0%nat by lia.
  destruct (Z.to_nat s) as [|n] eqn:En; [lia|].
  cbn [skipn firstn]. eexists.
  rewrite length_app. simpl.
  replace (List.length st + 1)%nat with (S (List.length st)) by lia.
  reflexivity.
Qed.

(** X15. A page that starts at or after the end of the selected records is
    answered 200 with no record and the same pagination block, for a limit
    [s] and a skip [(p-1)*s] up to [max_safe]. *)
Theorem page_beyond_end (q : ListQuery) (st sel : Collection) (p s : Z) :
  pageNum q = Fin p ->
  limitNum q = Fin s ->
  1 <= p ->
  1 <= s <= max_safe ->
  (p - 1) * s <= max_safe ->
  select (query q) st = Some sel ->
  Z.of_nat (List.length sel) <= (p - 1) * s ->
  response_of (get_list q) st =
  {| status := 200;
     body := page_body [] (Fin p) (Fin s) (Z.of_nat (List.length sel)) |}.
Proof.
  intros Hp Hl Hp1 Hs Hb Hsel Hend.
  rewrite get_list_eq, Hsel. unfold page_of.
  rewrite (window_past_end q sel p s Hp Hl Hp1 Hs Hb Hend).
  now rewrite Hp, Hl.
Qed.

(** ** Validation reports *)

Lemma elsewhere_of_stored (link : string) (oid : ObjectId) (st : Collection) :
  link_stored link st = false -> link_stored_elsewhere link oid st = false.
Proof.
  unfold link_stored, link_stored_elsewhere.
  induction st as [|d st IH]; simpl; [reflexivity|].
  intros H. apply orb_false_iff in H as [Hd Hst].
  now rewrite Hd, (IH Hst).
Qed.

(** X16. When both values fail their validators, one response reports both:
    a creation, and an update under any well-formed identifier, whose link
    is new are answered 400 with two [details] and change nothing. The
    creation gives the message of the link first, the update that of the
    owner name first. *)
Theorem validation_reports_each_field
  (env : Env) (id : string) (oid : ObjectId) (b : Body) (link owner : string)
  (st : Collection) :
  req_telegram_link b = Str link ->
  req_owner_name b = Str owner ->
  link <> EmptyString ->
  owner <> EmptyString ->
  castObjectId id = Some oid ->
  link_stored (trim link) st = false ->
  telegram_link_validator (trim link) = false ->
  spec_owner_ok owner = false ->
  exists m1 m2,
    In m1 ["Telegram link is required";
           "Please provide a valid Telegram link"] /\
    In m2 ["Owner name is required";
           "Owner name must be at least 2 characters long";
           "Owner name cannot exceed 100 characters"] /\
    post env b st
    = (validation_failed [("telegram_link", m1); ("owner_name", m2)], st,
       [FindOne; Save]) /\
    put env id b st
    = (validation_failed [("owner_name", m2); ("telegram_link", m1)], st,
       [FindOne; FindByIdAndUpdate]).
Proof.
  intros Hl Ho Nl No Hc Hs Hv Hw.
  assert (Tl : truthy (Str link) = true)
    by (destruct link; [congruence | reflexivity]).
  assert (To : truthy (Str owner) = true)
    by (destruct owner; [congruence | reflexivity]).
  destruct (validate_telegram_link (trim link)) as [m1|] eqn:E1.
  2:{ apply link_valid_iff in E1. congruence. }
  destruct (validate_owner_name (trim owner)) as [m2|] eqn:E2.
  2:{ apply owner_valid_iff in E2. congruence. }
  exists m1, m2.
  split.
  { unfold validate_telegram_link in E1.
    destruct (String.length (trim link) =? 0)%nat;
      [|destruct (negb _); [|discriminate E1]];
      injection E1 as <-; simpl; auto. }
  split.
  { unfold validate_owner_name in E2.
    destruct (String.length (trim owner) =? 0)%nat;
      [|destruct (String.length (trim owner) <? 2)%nat;
        [|destruct (100 <? String.length (trim owner))%nat;
          [|discriminate E2]]];
      injection E2 as <-; simpl; auto. }
  rewrite post_eq, put_eq, Hl, Ho, Hc. cbn [asString].
  rewrite Tl, To, Hs, (elsewhere_of_stored _ oid _ Hs). cbn [negb orb].
  unfold validate, validate_update. rewrite E1, E2. split; reflexivity.
Qed.

(** ** Duplicates up to surrounding white space *)

(** X17. In a collection the service built, a creation whose link differs
    from a stored link only by leading or trailing white space is a
    duplicate: with a non-empty [owner_name] it is answered 409, and nothing
    is inserted. *)
Theorem duplicate_up_to_whitespace
  (env : Env) (reqs : list (Env * Request)) (d : Doc) (link : string)
  (owner : value) :
  In d (serve reqs []) ->
  trim link = telegram_link d ->
  truthy owner = true ->
  post env {| req_telegram_link := Str link; req_owner_name := owner |}
       (serve reqs [])
  = (duplicate_link, serve reqs [], [FindOne]).
Proof.
  intros Hin Ht Ho.
  destruct (serve_well_formed reqs [] empty_well_formed) as [_ Hs].
  rewrite Forall_forall in Hs.
  destruct (schema_ok_link d (Hs d Hin)) as [_ Hl].
  assert (Tl : truthy (Str link) = true).
  { destruct link; [|reflexivity].
    rewrite <- Ht in Hl. discriminate Hl. }
  rewrite post_eq. cbn [req_telegram_link req_owner_name asString].
  rewrite Tl, Ho, Ht. cbn [negb orb].
  now rewrite (link_stored_in d _ Hin).
Qed.

End Routes_more.

(** ** The further properties on sample data *)

Lemma create_then_get_witness :
  castObjectId (Driver := hex24) "AAAAAAAAAAAAAAAAAAAAAAAA"
  = Some (new_id env0) /\
  get_by_id (drv := hex24) "AAAAAAAAAAAAAAAAAAAAAAAA" ([] ++ [doc_abc])
  = (found doc_abc, [] ++ [doc_abc], [FindById]).
Proof.
  split; [reflexivity|].
  exact (proj2 (create_then_get (drv := hex24) env0 body_abc []
                  "AAAAAAAAAAAAAAAAAAAAAAAA" eq_refl eq_refl)).
Defined.

Lemma delete_then_get_witness :
  unique_ids store_abc /\
  get_by_id (drv := hex24) "aaaaaaaaaaaaaaaaaaaaaaaa"
    (store_after (delete (drv := hex24) "aaaaaaaaaaaaaaaaaaaaaaaa") store_abc)
  = (not_found,
     store_after (delete (drv := hex24) "aaaaaaaaaaaaaaaaaaaaaaaa") store_abc,
     [FindById]).
Proof.
  assert (H : unique_ids store_abc)
    by exact (@NoDup_cons _ (_id doc_abc) [] (fun F => F) (NoDup_nil _)).
  split; [exact H|].
  exact (proj1 (proj2 (delete_then_get (drv := hex24)
                         "aaaaaaaaaaaaaaaaaaaaaaaa" store_abc H eq_refl))).
Defined.

Lemma update_then_get_witness :
  status (response_of
            (put (drv := hex24) env2 "aaaaaaaaaaaaaaaaaaaaaaaa" body_robert)
            store_abc) = 200 /\
  exists d, List.find (has_id "aaaaaaaaaaaaaaaaaaaaaaaa") store_abc = Some d.
Proof.
  split; [reflexivity|].
  destruct (update_then_get (drv := hex24) env2 "aaaaaaaaaaaaaaaaaaaaaaaa"
              "aaaaaaaaaaaaaaaaaaaaaaaa" body_robert store_abc
              eq_refl eq_refl) as (d & Hf & _).
  exists d. exact Hf.
Defined.

Lemma update_link_conflict_witness :
  In doc_abc (serve (drv := hex24) session_two []) /\
  put (drv := hex24) env2 "bbbbbbbbbbbbbbbbbbbbbbbb"
      {| req_telegram_link := Str (telegram_link doc_abc);
         req_owner_name := Str "Al" |} (serve (drv := hex24) session_two [])
  = (duplicate_link, serve (drv := hex24) session_two [], [FindOne]).
Proof.
  split; [left; reflexivity|].
  apply (update_link_conflict (drv := hex24) env2 session_two doc_abc
           "bbbbbbbbbbbbbbbbbbbbbbbb" "bbbbbbbbbbbbbbbbbbbbbbbb" (Str "Al")).
  - left. reflexivity.
  - reflexivity.
  - discriminate.
  - reflexivity.
Defined.

Lemma update_own_link_witness :
  In doc_xyz (serve (drv := hex24) session_two []) /\
  status (response_of
            (put (drv := hex24) env2 "bbbbbbbbbbbbbbbbbbbbbbbb"
               {| req_telegram_link := Str (telegram_link doc_xyz);
                  req_owner_name := Str "Alicia" |})
            (serve (drv := hex24) session_two [])) = 200.
Proof.
  split; [right; left; reflexivity|].
  rewrite (update_own_link (drv := hex24) env2 session_two doc_xyz
             "bbbbbbbbbbbbbbbbbbbbbbbb" "Alicia"
             (or_intror (or_introl eq_refl)) eq_refl eq_refl).
  reflexivity.
Defined.

Lemma malformed_id_witness :
  castObjectId (Driver := hex24) "not-an-id" = None /\
  delete (drv := hex24) "not-an-id" store_abc
  = (failure 500 "Failed to delete telegram link", store_abc,
     [FindByIdAndDelete]).
Proof.
  split; [reflexivity|].
  exact (proj1 (proj2 (malformed_id (drv := hex24) env1 "not-an-id" body_abc
                         store_abc eq_refl))).
Defined.

Lemma failure_keeps_store_witness :
  400 <= status (response_of
                   (handle (drv := hex24) env1
                      (Delete "cccccccccccccccccccccccc")) store_abc) /\
  store_after (handle (drv := hex24) env1 (Delete "cccccccccccccccccccccccc"))
    store_abc = store_abc.
Proof.
  assert (H : 400 <= status (response_of
                               (handle (drv := hex24) env1
                                  (Delete "cccccccccccccccccccccccc"))
                               store_abc))
    by (vm_compute; discriminate).
  split; [exact H|].
  apply (failure_keeps_store (drv := hex24) env1
           (Delete "cccccccccccccccccccccccc") store_abc).
  right. exact H.
Defined.

Lemma stored_records_valid_witness :
  In doc_xyz (serve (drv := hex24) session_two []) /\
  telegram_link_validator (telegram_link doc_xyz) = true.
Proof.
  split; [right; left; reflexivity|].
  apply (stored_records_valid (drv := hex24) session_two doc_xyz).
  right. left. reflexivity.
Defined.

Lemma timestamps_ordered_witness :
  clock_from 0 session_three /\
  In doc_robert (serve (drv := hex24) session_three []) /\
  createdAt doc_robert <= updatedAt doc_robert.
Proof.
  assert (Hc : clock_from 0 session_three)
    by (simpl; repeat split; discriminate).
  assert (Hin : In doc_robert (serve (drv := hex24) session_three []))
    by (left; reflexivity).
  split; [exact Hc|]. split; [exact Hin|].
  exact (timestamps_ordered (drv := hex24) 0 session_three doc_robert Hc Hin).
Defined.

Lemma newest_first_witness :
  status (response_of (post env1 body_xyz) store_abc) = 201 /\
  exists rest,
    response_of (get_list (drv := hex24) first_page)
      (store_after (post env1 body_xyz) store_abc) =
    {| status := 200;
       body := page_body (doc_xyz :: rest) (Fin 1) (Fin 10) 2 |}.
Proof.
  split; [reflexivity|].
  apply (newest_first (drv := hex24) env1 body_xyz store_abc first_page 10);
    try reflexivity.
  - intros x [<- | []]. reflexivity.
  - vm_compute. split; discriminate.
Defined.

Lemma page_beyond_end_witness :
  select (drv := hex24) (query page4_of5) twelve = Some twelve /\
  Z.of_nat (List.length twelve) <= (4 - 1) * 5 /\
  response_of (get_list (drv := hex24) page4_of5) twelve =
  {| status := 200; body := page_body [] (Fin 4) (Fin 5) 12 |}.
Proof.
  split; [reflexivity|]. split; [discriminate|].
  apply (page_beyond_end (drv := hex24) page4_of5 twelve twelve 4 5);
    try reflexivity; vm_compute; try split; discriminate.
Defined.

Lemma validation_reports_each_field_witness :
  telegram_link_validator (trim "ftp://t.me/abc") = false /\
  spec_owner_ok "x" = false /\
  exists m1 m2,
    post env1 body_bad store_abc
    = (validation_failed [("telegram_link", m1); ("owner_name", m2)],
       store_abc, [FindOne; Save]).
Proof.
  split; [reflexivity|]. split; [reflexivity|].
  destruct (validation_reports_each_field (drv := hex24) env1
              "aaaaaaaaaaaaaaaaaaaaaaaa" "aaaaaaaaaaaaaaaaaaaaaaaa" body_bad
              "ftp://t.me/abc" "x" store_abc eq_refl eq_refl
              ltac:(discriminate) ltac:(discriminate)
              eq_refl eq_refl eq_refl eq_refl)
    as (m1 & m2 & _ & _ & H & _).
  exists m1, m2. exact H.
Defined.

Lemma duplicate_up_to_whitespace_witness :
  In doc_abc (serve (drv := hex24) session_two []) /\
  trim "  https://t.me/abc " = telegram_link doc_abc /\
  post env2 {| req_telegram_link := Str "  https://t.me/abc ";
               req_owner_name := Str "Al" |}
       (serve (drv := hex24) session_two [])
  = (duplicate_link, serve (drv := hex24) session_two [], [FindOne]).
Proof.
  split; [left; reflexivity|]. split; [reflexivity|].
  apply (duplicate_up_to_whitespace (drv := hex24) env2 session_two doc_abc
           "  https://t.me/abc " (Str "Al")).
  - left. reflexivity.
  - reflexivity.
  - reflexivity.
Defined.
